(** * Deep-Research: a shallow embedding of the research core

    The development follows the Python sources under [core/]:
    - [search_engine.py]         -> [Module SearchEngine]
    - [content_extractor.py]     -> [Module ContentExtractor]
    - [ai_analyzer.py]           -> [Module AIAnalyzer]
    - [research_orchestrator.py] -> [Module Orchestrator], and [Module System]
      for the orchestrator with the three collaborators wired in;
    and, around the core, [config/settings.py] ([Module settings] for the
    constants, [Module Settings] for the keys and [validate]), the choice
    of the model in [app.py] ([Module App]) and the file names and the
    order of the writes of [utils/export_manager.py]
    ([Module ExportManager]).

    Python values are modelled as follows.  A [str] is the list of its
    Unicode code points ([list N]); a [dict] used as a map is a [gmap];
    a [set] is a [gset]; a decoded JSON document is a [json] tree, on which
    [get], [len], truth and slicing behave as in Python, raising where
    Python raises.

    Calls that leave the process (the search provider, HTTP, the language
    model, the progress callback, [time.sleep], the logger) are effects:
    externally decided outcomes are read from an abstract world, and what
    the code itself does to the outside (log records, sleeps, requests,
    progress calls) is written to an event list.  Python exceptions are
    values of [exn] carried by the [Raise] outcome; only subclasses of
    [Exception] are modelled.

    Three things are taken as they come from outside the repository:
    [json.loads] is a parameter ([None] for [JSONDecodeError]); the text
    of the prompts is a parameter (the model is an arbitrary function of
    it); and what [requests] and [BeautifulSoup] make of a URL is one
    external answer of type [ContentExtractor.page].  The thread pool of
    [extract_multiple] is modelled by its sequential schedule. *)

From Stdlib Require Import ZArith NArith List String Ascii Lia DecimalString.
From Stdlib Require Import Floats.SpecFloat.
From stdpp Require Import base option list gmap sets sorting.

Local Open Scope Z_scope.

(* ===================================================================== *)
(** ** Python strings *)
(* ===================================================================== *)

Abbreviation pystr := (list N).

Module PyStr.

(** An ASCII literal as a Python string. *)
Definition lit (s : string) : pystr :=
  map N_of_ascii (list_ascii_of_string s).

Definition nl : N := 10%N.

(** [str.isspace] on one code point. *)
Definition isspace (c : N) : bool :=
  ((9 <=? c) && (c <=? 13) || (28 <=? c) && (c <=? 32)
   || (c =? 133) || (c =? 160) || (c =? 5760)
   || (8192 <=? c) && (c <=? 8202)
   || (c =? 8232) || (c =? 8233) || (c =? 8239) || (c =? 8287)
   || (c =? 12288))%N.

Fixpoint lstrip (s : pystr) : pystr :=
  match s with
  | c :: s' => if isspace c then lstrip s' else s
  | [] => []
  end.

Definition rstrip (s : pystr) : pystr := rev (lstrip (rev s)).

(** [s.strip()] *)
Definition strip (s : pystr) : pystr := rstrip (lstrip s).

(** [s.startswith(p)] *)
Fixpoint startswith (p s : pystr) : bool :=
  match p, s with
  | [], _ => true
  | a :: p', b :: s' => (a =? b)%N && startswith p' s'
  | _ :: _, [] => false
  end.

(** [s.endswith(p)] *)
Definition endswith (p s : pystr) : bool := startswith (rev p) (rev s).

(** [needle in hay] *)
Fixpoint contains (needle hay : pystr) : bool :=
  startswith needle hay ||
  match hay with
  | [] => false
  | _ :: hay' => contains needle hay'
  end.

(** [s[k:]] and [s[:-k]] for a non-negative literal [k]. *)
Definition slice_from (k : nat) (s : pystr) : pystr := drop k s.
Definition slice_drop_last (k : nat) (s : pystr) : pystr :=
  take (length s - k) s.

(** [str(n)] for a non-negative integer. *)
Definition of_nat (n : nat) : pystr :=
  lit (NilEmpty.string_of_uint (Nat.to_uint n)).

(** [a < b] and [a <= b] on strings: lexicographic on code points. *)
Fixpoint leb (a b : pystr) : bool :=
  match a, b with
  | [], _ => true
  | _ :: _, [] => false
  | x :: a', y :: b' => (x <? y)%N || ((x =? y)%N && leb a' b')
  end.

Definition le (a b : pystr) : Prop := leb a b = true.
Definition lt (a b : pystr) : Prop := le a b /\ a <> b.

#[global] Instance le_dec a b : Decision (le a b).
Proof. unfold le. apply _. Defined.

End PyStr.

(* ===================================================================== *)
(** ** Exceptions and outcomes *)
(* ===================================================================== *)

Inductive exn_class :=
| AttributeError | TypeError | IndexError | UnboundLocalError
| JSONDecodeError | RequestException | RuntimeError | ValueError.

Record exn := Exn { exn_cls : exn_class; exn_msg : pystr }.

Definition is_json_decode_error (e : exn) : bool :=
  match exn_cls e with JSONDecodeError => true | _ => false end.

Inductive res (A : Type) :=
| Ok (a : A)
| Raise (e : exn).
Arguments Ok {A} a.
Arguments Raise {A} e.

Definition is_ok {A} (r : res A) : bool :=
  match r with Ok _ => true | Raise _ => false end.

(* ===================================================================== *)
(** ** The effect monad: state, exceptions and an event log *)
(* ===================================================================== *)

Section Effects.
Context {S E : Type}.

Record out (A : Type) := Out { val : res A; post : S; emitted : list E }.
Arguments Out {A} _ _ _.
Arguments val {A} _.
Arguments post {A} _.
Arguments emitted {A} _.

Definition M (A : Type) : Type := S -> out A.

Definition ret {A} (a : A) : M A := fun s => Out (Ok a) s [].
Definition raise {A} (e : exn) : M A := fun s => Out (Raise e) s [].

Definition bind {A B} (m : M A) (k : A -> M B) : M B := fun s =>
  match m s with
  | Out (Ok a) s1 evs1 =>
      match k a s1 with
      | Out r s2 evs2 => Out r s2 (evs1 ++ evs2)
      end
  | Out (Raise e) s1 evs1 => Out (Raise e) s1 evs1
  end.

(** One event written to the log. *)
Definition emit (e : E) : M unit := fun s => Out (Ok tt) s [e].

(** [try: m  except Exception as e: h e] *)
Definition try_except {A} (m : M A) (h : exn -> M A) : M A := fun s =>
  match m s with
  | Out (Ok a) s1 evs1 => Out (Ok a) s1 evs1
  | Out (Raise e) s1 evs1 =>
      match h e s1 with
      | Out r s2 evs2 => Out r s2 (evs1 ++ evs2)
      end
  end.

(** A pure Python operation that may raise. *)
Definition lift_res {A} (r : res A) : M A := fun s => Out r s [].

(** An external call: its outcome and the next world are read off the
    state by [f]. *)
Definition external {A} (f : S -> res A * S) : M A := fun s =>
  let '(r, s') := f s in Out r s' [].

End Effects.

Arguments out : clear implicits.
Arguments M : clear implicits.
Arguments Out {S E A} _ _ _.
Arguments val {S E A} _.
Arguments post {S E A} _.
Arguments emitted {S E A} _.

(** The same computation, with every event it writes seen through [f]. *)
Definition relabel {S E E' A : Type} (f : E -> E') (m : M S E A)
  : M S E' A := fun s =>
  match m s with
  | Out v s' evs => Out v s' (map f evs)
  end.

Declare Scope eff_scope.
Delimit Scope eff_scope with eff.
Notation "x <- c1 ;; c2" := (bind c1 (fun x => c2))
  (at level 100, c1 at next level, right associativity) : eff_scope.
Notation "c1 ;; c2" := (bind c1 (fun _ => c2))
  (at level 100, right associativity) : eff_scope.
Local Open Scope eff_scope.

(* ===================================================================== *)
(** ** JSON values and the Python operations the code applies to them *)
(* ===================================================================== *)

#[warnings="-register-all"]
Inductive json :=
| JNull
| JBool (b : bool)
| JInt (z : Z)
| JFloat (f : spec_float)
| JStr (s : pystr)
| JArr (l : list json)
| JObj (kv : list (pystr * json)).

Module Py.

(** Lookup in a decoded object: the first binding of the key. *)
Fixpoint assoc (k : pystr) (kv : list (pystr * json)) : option json :=
  match kv with
  | [] => None
  | (k', v) :: kv' => if decide (k = k') then Some v else assoc k kv'
  end.

(** [v.get(k, default)]: only a dict has [get]. *)
Definition get (v : json) (k : pystr) (default : json) : res json :=
  match v with
  | JObj kv => Ok (match assoc k kv with Some x => x | None => default end)
  | _ => Raise (Exn AttributeError (PyStr.lit "get"))
  end.


(** [len(v)] *)
Definition len (v : json) : res nat :=
  match v with
  | JStr s => Ok (length s)
  | JArr l => Ok (length l)
  | JObj kv => Ok (length kv)
  | _ => Raise (Exn TypeError (PyStr.lit "len"))
  end.

(** [bool(v)] *)
Definition truthy (v : json) : bool :=
  match v with
  | JNull => false
  | JBool b => b
  | JInt z => negb (z =? 0)
  | JFloat (S754_zero _) => false
  | JFloat _ => true
  | JStr s => negb (bool_decide (s = []))
  | JArr l => match l with [] => false | _ => true end
  | JObj kv => match kv with [] => false | _ => true end
  end.

(** [v[:k]]: strings and lists can be sliced; iterating the slice of a
    string yields its one-character strings. *)
Definition slice_to (k : nat) (v : json) : res (list json) :=
  match v with
  | JArr l => Ok (take k l)
  | JStr s => Ok (map (fun c => JStr [c]) (take k s))
  | _ => Raise (Exn TypeError (PyStr.lit "slice"))
  end.

End Py.

(* ===================================================================== *)
(** ** config/settings.py *)
(* ===================================================================== *)

Module settings.
Definition REQUEST_TIMEOUT : Z := 30.
Definition MAX_RETRIES : Z := 3.
Definition RETRY_DELAY : Z := 1.
Definition MAX_CONTENT_LENGTH : nat := 5000.
End settings.

(** The class [Settings]: what it reads from the environment for the
    model providers, and its [validate]. *)
Module Settings.

Record env := {
  DEEPSEEK_API_KEY : pystr;
  OPENAI_API_KEY : pystr;
  ANTHROPIC_API_KEY : pystr;
  DEEPSEEK_MODEL : pystr }.

Definition OPENAI_MODEL : pystr := PyStr.lit "gpt-4-turbo-preview".
Definition ANTHROPIC_MODEL : pystr := PyStr.lit "claude-3-opus-20240229".

(** The truth value of a string: [if key]. *)
Definition is_set (key : pystr) : bool :=
  match key with [] => false | _ :: _ => true end.

(** The message of the [ValueError] of [validate]. *)
Definition no_key_message : pystr :=
  [33267; 23569; 38656; 35201; 37197; 32622; 32]%N
  ++ PyStr.lit "DEEPSEEK_API_KEY" ++ [12289]%N
  ++ PyStr.lit "OPENAI_API_KEY" ++ [32; 25110; 32]%N
  ++ PyStr.lit "ANTHROPIC_API_KEY" ++ [12290; 35831; 22797; 21046; 32]%N
  ++ PyStr.lit ".env.example" ++ [32; 20026; 32]%N
  ++ PyStr.lit ".env" ++ [32; 24182; 22635; 20837; 32]%N
  ++ PyStr.lit "API" ++ [32; 23494; 38053; 12290]%N.

Section WithFilesystem.
Context {W E : Type}.
(** [cls.OUTPUT_DIR.mkdir(parents=True, exist_ok=True)] *)
Variable mkdir_output_dir : W -> res unit * W.

Definition validate (cls : env) : M W E bool :=
  if negb (is_set (DEEPSEEK_API_KEY cls)) && negb (is_set (OPENAI_API_KEY cls))
     && negb (is_set (ANTHROPIC_API_KEY cls))
  then raise (Exn ValueError no_key_message)
  else
    external mkdir_output_dir ;;
    ret true.

End WithFilesystem.

End Settings.

(* ===================================================================== *)
(** ** Data model and observable events *)
(* ===================================================================== *)

(** A search result as [SearchEngine.search] builds it: a dict with the
    three keys [title], [url], [snippet] (the dataclass [SearchResult] of
    the orchestrator module is not what the code passes around). *)
Record SearchRecord := { title : pystr; url : pystr; snippet : pystr }.

Inductive level := DEBUG | INFO | WARNING | ERROR.

(** The records the modules hand to their logger, by call site. *)
Inductive log_msg :=
(* search_engine.py *)
| SearchStarted (query : pystr) (max_results : Z)
| SearchSucceeded (n : nat)
| SearchAttemptFailed (retry_count max_retries : Z) (e : exn)
| SearchWaiting (delay : Z)
| SearchGaveUp (query : pystr)
(* content_extractor.py *)
| CacheHit (url : pystr)
| Extracting (url : pystr)
| NoMainContentFound (url : pystr)
| Extracted (url : pystr) (chars : nat)
| RequestAttemptFailed (retry_count max_retries : Z) (url : pystr) (e : exn)
| ExtractGaveUp (url : pystr)
| ParseFailed (url : pystr) (e : exn)
| TaskFailed (url : pystr) (e : exn)
(* ai_analyzer.py *)
| Analyzing (query : pystr)
| Analyzed (findings : nat)
| NotJSON
| Synthesizing (topic : pystr)
| ReportReady
| ReportFailed (e : exn)
(* research_orchestrator.py *)
| ResearchStarted (topic : pystr) (max_rounds : Z)
| RoundBanner (round_number : Z)
| NoMoreQueries
| SearchDone (results : nat)
| ExtractDone (pages : nat)
| AnalysisDone
| MaxRoundsReached
| NoGaps
| WritingReport
| ResearchDone (rounds sources : nat)
| QueryGenFailed (e : exn).

(** The progress messages of [conduct_research], by checkpoint. *)
Inductive progress_msg :=
| MsgRoundStart (round_number max_rounds : Z)
| MsgSearchQuery (round_number max_rounds : Z) (query : pystr)
| MsgExtracting (round_number max_rounds : Z)
| MsgAnalyzing (round_number max_rounds : Z)
| MsgReport.

Inductive event :=
| Log (lvl : level) (m : log_msg)
| Sleep (secs : Z)                              (* time.sleep *)
| ProviderCall (query : pystr) (max_results : Z)  (* DDGS.text *)
| HttpGet (url : pystr)                         (* session.get *)
| Progress (m : progress_msg) (current total : Z) (raised : option exn).

(* ===================================================================== *)
(** ** The source set: collected by the orchestrator and by the analyzer *)
(* ===================================================================== *)

(** [if result.get('url'): all_sources.add(result['url'])] *)
Definition add_source (all_sources : gset pystr) (result : SearchRecord)
  : gset pystr :=
  match url result with
  | [] => all_sources
  | u => {[ u ]} ∪ all_sources
  end.

Definition add_sources (all_sources : gset pystr) (results : list SearchRecord)
  : gset pystr :=
  foldl add_source all_sources results.

(** [sorted(all_sources)] *)
Definition sorted (all_sources : gset pystr) : list pystr :=
  merge_sort PyStr.le (elements all_sources).

(* ===================================================================== *)
(** ** core/search_engine.py *)
(* ===================================================================== *)

Module SearchEngine.

(** One entry of the provider's answer: a dict read with
    [get('title', '')], [get('href', '')], [get('body', '')]. *)
Record hit := { hit_title : option pystr; hit_href : option pystr;
  hit_body : option pystr }.

Definition to_record (h : hit) : SearchRecord :=
  {| title := default [] (hit_title h);
     url := default [] (hit_href h);
     snippet := default [] (hit_body h) |}.


Definition sleeps (evs : list event) : list Z :=
  omap (fun e => match e with Sleep d => Some d | _ => None end) evs.


(** What [search_multiple] does to the outside: what its searches do, and
    the pause [time.sleep(0.5)] after each of them. *)
Inductive throttled :=
| Searching (e : event)
| Pause (secs : spec_float).

(** The float [0.5]. *)
Definition half_a_second : spec_float := S754_finite false 1 (-1).

(** The pauses made, in order. *)
Fixpoint pauses (evs : list throttled) : list spec_float :=
  match evs with
  | [] => []
  | Pause secs :: evs' => secs :: pauses evs'
  | Searching _ :: evs' => pauses evs'
  end.

(** What the searches did, in order. *)
Fixpoint searching (evs : list throttled) : list event :=
  match evs with
  | [] => []
  | Searching e :: evs' => e :: searching evs'
  | Pause _ :: evs' => searching evs'
  end.

Section WithProvider.
Context {W : Type}.
(** [settings.RESULTS_PER_SEARCH] is read from the environment. *)
Variable RESULTS_PER_SEARCH : Z.
(** [self.ddgs.text(query, max_results=n)]: the provider answers with a
    list of hits or raises. *)
Variable ddgs_text : pystr -> Z -> W -> res (list hit) * W.

(** The [while retry_count < MAX_RETRIES] loop of [search]; [fuel] is
    the loop variant [MAX_RETRIES - retry_count]. *)
Fixpoint search_loop (fuel : nat) (query : pystr) (max_results : Z)
    (results : list SearchRecord) (retry_count : Z)
  : M W event (list SearchRecord) :=
  match fuel with
  | O => ret results
  | S fuel' =>
    if retry_count <? settings.MAX_RETRIES then
      try_except
        (emit (ProviderCall query max_results) ;;
         search_results <- external (ddgs_text query max_results) ;;
         let results := results ++ map to_record search_results in
         emit (Log INFO (SearchSucceeded (length results))) ;;
         ret results)
        (fun e =>
           let retry_count := retry_count + 1 in
           emit (Log WARNING
                   (SearchAttemptFailed retry_count settings.MAX_RETRIES e)) ;;
           if retry_count <? settings.MAX_RETRIES then
             let delay := settings.RETRY_DELAY * 2 ^ (retry_count - 1) in
             emit (Log INFO (SearchWaiting delay)) ;;
             emit (Sleep delay) ;;
             search_loop fuel' query max_results results retry_count
           else
             emit (Log ERROR (SearchGaveUp query)) ;;
             ret [])
    else ret results
  end.

Definition search (query : pystr) (max_results : option Z)
  : M W event (list SearchRecord) :=
  let max_results := default RESULTS_PER_SEARCH max_results in
  emit (Log INFO (SearchStarted query max_results)) ;;
  search_loop (Z.to_nat settings.MAX_RETRIES) query max_results [] 0.

(** The [for query in queries] loop of [search_multiple]; a query listed
    twice is searched twice and keeps its later result. *)
Fixpoint search_multiple_loop (queries : list pystr) (max_results : option Z)
    (results : gmap pystr (list SearchRecord))
  : M W throttled (gmap pystr (list SearchRecord)) :=
  match queries with
  | [] => ret results
  | query :: queries' =>
      found <- relabel Searching (search query max_results) ;;
      let results := <[query := found]> results in
      emit (Pause half_a_second) ;;
      search_multiple_loop queries' max_results results
  end.

Definition search_multiple (queries : list pystr) (max_results : option Z)
  : M W throttled (gmap pystr (list SearchRecord)) :=
  search_multiple_loop queries max_results ∅.

End WithProvider.

End SearchEngine.

(* ===================================================================== *)
(** ** core/content_extractor.py *)
(* ===================================================================== *)

Module ContentExtractor.

(** What the [try] body of [extract_content] comes to before the length
    limit is applied: [session.get], [raise_for_status], the HTML parse and
    the selection of the main element are library calls, and the world
    decides which way they go. *)
Inductive page :=
| RequestFailed (e : exn)    (* a requests.exceptions.RequestException *)
| OtherFailure (e : exn)     (* any other Exception *)
| NoMainContent              (* no selector matched and there is no body *)
| MainContent (content : pystr). (* the joined non-blank lines *)

(** A [ContentExtractor] instance: the network it talks to and
    [self.cache]. *)
Record fetcher (W : Type) := Fetcher { net : W; cache : gmap pystr pystr }.
Arguments Fetcher {W} _ _.
Arguments net {W} _.
Arguments cache {W} _.


Section WithNetwork.
Context {W : Type}.
(** [settings.MAX_CONCURRENT_REQUESTS] is read from the environment. *)
Variable MAX_CONCURRENT_REQUESTS : Z.
(** The page behind a URL, as the world serves it at this moment. *)
Variable fetch_page : pystr -> W -> page * W.

Definition get_page (url : pystr) : M (fetcher W) event page := fun s =>
  let '(p, w') := fetch_page url (net s) in
  Out (Ok p) (Fetcher w' (cache s)) [HttpGet url].

(** [self.cache[url] = content] *)
Definition cache_store (url content : pystr) : M (fetcher W) event unit :=
  fun s => Out (Ok tt) (Fetcher (net s) (<[url := content]> (cache s))) [].

(** [content[:MAX_CONTENT_LENGTH] + '...'] when the text is too long. *)
Definition limit_length (content : pystr) : pystr :=
  if (settings.MAX_CONTENT_LENGTH <? length content)%nat
  then take settings.MAX_CONTENT_LENGTH content ++ PyStr.lit "..."
  else content.

(** The [while retry_count < MAX_RETRIES] loop of [extract_content];
    [fuel] is the loop variant [MAX_RETRIES - retry_count]. *)
Fixpoint fetch_loop (fuel : nat) (url : pystr) (retry_count : Z)
  : M (fetcher W) event (option pystr) :=
  match fuel with
  | O => ret None
  | S fuel' =>
    if retry_count <? settings.MAX_RETRIES then
      p <- get_page url ;;
      match p with
      | MainContent content =>
          let content := limit_length content in
          cache_store url content ;;
          emit (Log INFO (Extracted url (length content))) ;;
          ret (Some content)
      | NoMainContent =>
          emit (Log WARNING (NoMainContentFound url)) ;;
          ret None
      | RequestFailed e =>
          let retry_count := retry_count + 1 in
          emit (Log WARNING
                  (RequestAttemptFailed retry_count settings.MAX_RETRIES url e)) ;;
          if retry_count <? settings.MAX_RETRIES then
            let delay := settings.RETRY_DELAY * 2 ^ (retry_count - 1) in
            emit (Sleep delay) ;;
            fetch_loop fuel' url retry_count
          else
            emit (Log ERROR (ExtractGaveUp url)) ;;
            ret None
      | OtherFailure e =>
          emit (Log ERROR (ParseFailed url e)) ;;
          ret None
      end
    else ret None
  end.

Definition extract_content (url : pystr) : M (fetcher W) event (option pystr) :=
  fun s =>
  match cache s !! url with
  | Some content =>
      (emit (Log DEBUG (CacheHit url)) ;; ret (Some content)) s
  | None =>
      (emit (Log INFO (Extracting url)) ;;
       fetch_loop (Z.to_nat settings.MAX_RETRIES) url 0) s
  end.

(** [if content:] on an [Optional[str]]. *)
Definition nonempty (content : option pystr) : option pystr :=
  match content with
  | Some (c :: s) => Some (c :: s)
  | _ => None
  end.

(** The collection loop of [extract_multiple] over the submitted tasks.
    The worker pool is modelled by its sequential schedule: the tasks run
    one after the other in submission order and complete in that order.
    [task] stands for the bound method [self.extract_content]. *)
Fixpoint collect (task : pystr -> M (fetcher W) event (option pystr))
    (urls : list pystr) (results : gmap pystr pystr)
  : M (fetcher W) event (gmap pystr pystr) :=
  match urls with
  | [] => ret results
  | url :: urls' =>
      results <- try_except
                   (content <- task url ;;
                    match nonempty content with
                    | Some content => ret (<[url := content]> results)
                    | None => ret results
                    end)
                   (fun e => emit (Log ERROR (TaskFailed url e)) ;; ret results) ;;
      collect task urls' results
  end.

Definition extract_multiple_tasks
    (task : pystr -> M (fetcher W) event (option pystr))
    (urls : list pystr) (max_workers : option Z)
  : M (fetcher W) event (gmap pystr pystr) :=
  let max_workers := default MAX_CONCURRENT_REQUESTS max_workers in
  (* ThreadPoolExecutor(max_workers=...) *)
  if max_workers <=? 0 then
    raise (Exn ValueError (PyStr.lit "max_workers must be greater than 0"))
  else collect task urls ∅.

Definition extract_multiple (urls : list pystr) (max_workers : option Z)
  : M (fetcher W) event (gmap pystr pystr) :=
  extract_multiple_tasks extract_content urls max_workers.

(** What can happen to a fetcher between two calls: an extraction of some
    URL, a batch extraction, or the network moving on by itself. *)
Inductive fetcher_step : fetcher W -> fetcher W -> Prop :=
| step_extract url s :
    fetcher_step s (post (extract_content url s))
| step_extract_multiple urls max_workers s :
    fetcher_step s
      (post (extract_multiple urls max_workers s))
| step_network w' s :
    fetcher_step s (Fetcher w' (cache s)).



End WithNetwork.

End ContentExtractor.

(* ===================================================================== *)
(** ** core/ai_analyzer.py *)
(* ===================================================================== *)

(** One entry of [all_rounds_data], the list [conduct_research] hands to
    [synthesize_research]. *)
Record round_data := RoundData {
  rd_round_number : Z;
  rd_queries : list pystr;
  rd_search_results : list SearchRecord;
  rd_analysis : json }.

Module AIAnalyzer.

(** The [all_sources] set [synthesize_research] collects over the rounds. *)
Definition collect_sources (all_rounds : list round_data) : gset pystr :=
  foldl (fun acc rd => add_sources acc (rd_search_results rd)) ∅ all_rounds.

Definition key_findings : pystr := PyStr.lit "key_findings".
Definition summary : pystr := PyStr.lit "summary".
Definition topics : pystr := PyStr.lit "topics".
Definition gaps : pystr := PyStr.lit "gaps".

(** The code-fence clean-up both JSON-reading methods apply to the
    model's answer before [json.loads]. *)
Definition strip_fences (response : pystr) : pystr :=
  let response := PyStr.strip response in
  let response :=
    if PyStr.startswith (PyStr.lit "```json") response
    then PyStr.slice_from 7 response else response in
  let response :=
    if PyStr.startswith (PyStr.lit "```") response
    then PyStr.slice_from 3 response else response in
  if PyStr.endswith (PyStr.lit "```") response
  then PyStr.slice_drop_last 3 response else response.

(** The dict returned from the [except json.JSONDecodeError] branch. *)
Definition fallback_analysis (response : pystr) : json :=
  JObj [ (key_findings, JArr [JStr response]);
         (summary, JStr response);
         (topics, JArr []);
         (gaps, JArr []) ].


(** [analysis.get('key_findings', [])[:5]], guarded by [if analysis:]. *)
Definition top_findings (analysis : json) : res (list json) :=
  if Py.truthy analysis then
    match Py.get analysis key_findings (JArr []) with
    | Ok kf => Py.slice_to 5 kf
    | Raise e => Raise e
    end
  else Ok [].

(** What the prompt of [synthesize_research] quotes of the rounds: per
    round its queries and its first findings.  Building it raises when an
    analysis has the wrong shape. *)
Fixpoint digest (all_rounds : list round_data)
  : res (list (list pystr * list json)) :=
  match all_rounds with
  | [] => Ok []
  | rd :: rest =>
      match top_findings (rd_analysis rd) with
      | Raise e => Raise e
      | Ok fs =>
          match digest rest with
          | Raise e => Raise e
          | Ok d => Ok ((rd_queries rd, fs) :: d)
          end
      end
  end.

(** "## " followed by U+53C2 U+8003 U+6765 U+6E90 *)
Definition heading_zh : pystr :=
  PyStr.lit "## " ++ [21442; 32771; 26469; 28304]%N.
Definition heading_en : pystr := PyStr.lit "## References".

Definition references_header : pystr :=
  [PyStr.nl; PyStr.nl] ++ heading_zh ++ PyStr.lit " (References)"
  ++ [PyStr.nl; PyStr.nl].

(** [f"{i}. {url}\n"] *)
Definition reference_line (i : nat) (u : pystr) : pystr :=
  PyStr.of_nat i ++ PyStr.lit ". " ++ u ++ [PyStr.nl].

Definition references_section (all_sources : gset pystr) : pystr :=
  references_header
  ++ concat (imap (fun i u => reference_line (S i) u) (sorted all_sources)).

Definition has_references (report : pystr) : bool :=
  PyStr.contains heading_zh report || PyStr.contains heading_en report.

(** The post-processing inside the [try] of [synthesize_research]. *)
Definition ensure_references (report : pystr) (all_sources : gset pystr)
  : pystr :=
  if has_references report then report
  else report ++ references_section all_sources.

(** U+65E0 U+6458 U+8981, the default of [analysis.get('summary', ...)] *)
Definition no_summary : pystr := [26080; 25688; 35201]%N.

(** The report assembled in the [except] branch of [synthesize_research]. *)
Fixpoint simple_rounds (i : nat) (all_rounds : list round_data) (acc : pystr)
  : res pystr :=
  match all_rounds with
  | [] => Ok acc
  | rd :: rest =>
      (* "### " U+7B2C " " i " " U+8F6E "\n" *)
      let acc := acc ++ PyStr.lit "### " ++ [31532; 32]%N ++ PyStr.of_nat i
                     ++ [32; 36718; PyStr.nl]%N in
      match Py.get (rd_analysis rd) summary (JStr no_summary) with
      | Ok (JStr s) => simple_rounds (S i) rest (acc ++ s ++ [PyStr.nl; PyStr.nl])
      | Ok _ => Raise (Exn TypeError (PyStr.lit "+"))
      | Raise e => Raise e
      end
  end.

Definition simple_report (topic : pystr) (all_rounds : list round_data)
  : res pystr :=
  (* "# " topic "\n\n## " U+7814 U+7A76 U+6458 U+8981 "\n\n" *)
  simple_rounds 1 all_rounds
    (PyStr.lit "# " ++ topic ++ [PyStr.nl; PyStr.nl] ++ PyStr.lit "## "
     ++ [30740; 31350; 25688; 35201; PyStr.nl; PyStr.nl]%N).

(** The records [generate_follow_up_queries] hands to its logger. *)
Inductive follow_up_log :=
| GeneratingQueries (round_number : Z)
| QueriesGenerated (n : nat)
| QueriesNotParsed.

Section WithBackend.
Context {W prompt : Type}.
(** [self._call_api(messages, system_prompt)]: the model's answer, or the
    exception the client raised (logged and re-raised by [_call_api]). *)
Variable call_api : prompt -> W -> res pystr * W.
(** [json.loads]; [None] stands for [json.JSONDecodeError]. *)
Variable json_loads : pystr -> option json.
(** The f-string prompts.  They only feed the model, so their text is kept
    abstract: the analysis prompt is built from the query, the results
    (of which it quotes ten) and the content map (of which it samples
    five pages), the synthesis prompt from the topic and the digest. *)
Variable analysis_prompt :
  pystr -> list SearchRecord -> gmap pystr pystr -> prompt.
Variable synthesis_prompt : pystr -> list (list pystr * list json) -> prompt.

Definition analyze_search_results (query : pystr)
    (results : list SearchRecord) (extracted_contents : gmap pystr pystr)
  : M W event json :=
  emit (Log INFO (Analyzing query)) ;;
  fun s =>
    match call_api (analysis_prompt query results extracted_contents) s with
    | (Raise e, s') =>
        if is_json_decode_error e then
          (* the handler reads [response], which was never assigned *)
          (emit (Log WARNING NotJSON) ;;
           raise (Exn UnboundLocalError (PyStr.lit "response"))) s'
        else raise e s'
    | (Ok response, s') =>
        let response := strip_fences response in
        match json_loads (PyStr.strip response) with
        | Some analysis =>
            (kf <- lift_res (Py.get analysis key_findings (JArr [])) ;;
             n <- lift_res (Py.len kf) ;;
             emit (Log INFO (Analyzed n)) ;;
             ret analysis) s'
        | None =>
            (emit (Log WARNING NotJSON) ;;
             ret (fallback_analysis response)) s'
        end
    end.

Definition synthesize_research (topic : pystr) (all_rounds : list round_data)
  : M W event pystr :=
  emit (Log INFO (Synthesizing topic)) ;;
  d <- lift_res (digest all_rounds) ;;
  let all_sources := collect_sources all_rounds in
  try_except
    (report <- external (call_api (synthesis_prompt topic d)) ;;
     let report := ensure_references report all_sources in
     emit (Log INFO ReportReady) ;;
     ret report)
    (fun e =>
       emit (Log ERROR (ReportFailed e)) ;;
       lift_res (simple_report topic all_rounds)).

(** The prompt of [generate_follow_up_queries] is built from the initial
    query and from the [key_findings] and the [gaps] of the analysis. *)
Variable follow_up_prompt : pystr -> json -> json -> prompt.

(** The [except json.JSONDecodeError] branch of
    [generate_follow_up_queries]: the gaps serve as queries. *)
Definition gaps_as_queries (analysis : json)
  : M W (level * follow_up_log) (list json) :=
  emit (WARNING, QueriesNotParsed) ;;
  gs <- lift_res (Py.get analysis gaps (JArr [])) ;;
  if Py.truthy gs then lift_res (Py.slice_to 3 gs) else ret [].

(** The value returned is given by its items, as the orchestrator reads
    it (truth, iteration, first item). *)
Definition generate_follow_up_queries (initial_query : pystr)
    (analysis : json) (round_number : Z)
  : M W (level * follow_up_log) (list json) :=
  emit (INFO, GeneratingQueries (round_number + 1)) ;;
  (* the f-string of the prompt reads the analysis, before the [try] *)
  kf <- lift_res (Py.get analysis key_findings (JArr [])) ;;
  gs <- lift_res (Py.get analysis gaps (JArr [])) ;;
  fun s =>
    match call_api (follow_up_prompt initial_query kf gs) s with
    | (Raise e, s') =>
        if is_json_decode_error e then gaps_as_queries analysis s'
        else raise e s'
    | (Ok response, s') =>
        let response := strip_fences response in
        match json_loads (PyStr.strip response) with
        | Some queries =>
            (n <- lift_res (Py.len queries) ;;
             emit (INFO, QueriesGenerated n) ;;
             lift_res (Py.slice_to 3 queries)) s'
        | None => gaps_as_queries analysis s'
        end
    end.

End WithBackend.

Inductive AIProvider := DEEPSEEK | OPENAI | ANTHROPIC.

(** An [AIAnalyzer] instance: [self.provider] and [self.model];
    [self.client] lives in the world. *)
Record analyzer := { provider : AIProvider; model : pystr }.

(** U+672A U+914D U+7F6E " ", the beginning of the message of the
    [ValueError] of [__init__]. *)
Definition not_configured (name : string) : exn :=
  Exn ValueError ([26410; 37197; 32622; 32]%N ++ PyStr.lit name).

Section WithSettings.
Context {W E : Type}.
Variable settings : Settings.env.
(** The import of the client library and the construction of the client
    for a provider: [from openai import OpenAI; OpenAI(...)] or
    [from anthropic import Anthropic; Anthropic(...)]. *)
Variable make_client : AIProvider -> W -> res unit * W.

Definition __init__ (provider : AIProvider) : M W E analyzer :=
  match provider with
  | DEEPSEEK =>
      if negb (Settings.is_set (Settings.DEEPSEEK_API_KEY settings))
      then raise (not_configured "DEEPSEEK_API_KEY")
      else
        external (make_client provider) ;;
        ret {| provider := provider;
               model := Settings.DEEPSEEK_MODEL settings |}
  | OPENAI =>
      if negb (Settings.is_set (Settings.OPENAI_API_KEY settings))
      then raise (not_configured "OPENAI_API_KEY")
      else
        external (make_client provider) ;;
        ret {| provider := provider; model := Settings.OPENAI_MODEL |}
  | ANTHROPIC =>
      if negb (Settings.is_set (Settings.ANTHROPIC_API_KEY settings))
      then raise (not_configured "ANTHROPIC_API_KEY")
      else
        external (make_client provider) ;;
        ret {| provider := provider; model := Settings.ANTHROPIC_MODEL |}
  end.

End WithSettings.

End AIAnalyzer.

(* ===================================================================== *)
(** ** core/research_orchestrator.py *)
(* ===================================================================== *)

Module Orchestrator.

Record ResearchRound := {
  round_number : Z;
  queries : list pystr;
  search_results : list SearchRecord;
  extracted_contents : gmap pystr pystr;
  analysis : json }.

Record ResearchResult := {
  topic : pystr;
  final_report : pystr;
  rounds : list ResearchRound;
  all_sources : list pystr;
  timestamp : Z;
  total_rounds : nat }.

(** How one pass through the body of the [for] loop ends. *)
Inductive loop_ctl := Break | Continue.

(** [range(n)] *)
Definition range (n : Z) : list Z := map Z.of_nat (seq 0 (Z.to_nat n)).

(** The dict appended to [all_rounds_data] for a round. *)
Definition to_round_data (r : ResearchRound) : round_data :=
  {| rd_round_number := round_number r;
     rd_queries := queries r;
     rd_search_results := search_results r;
     rd_analysis := analysis r |}.

Section WithCollaborators.
Context {W : Type}.
(** [settings.MAX_RESEARCH_ROUNDS] and [settings.RESULTS_PER_SEARCH] are
    read from the environment. *)
Variable MAX_RESEARCH_ROUNDS RESULTS_PER_SEARCH : Z.
(** The three collaborators the orchestrator owns, as it calls them:
    [self.search_engine.search], [self.content_extractor.extract_multiple]
    and the three methods of [self.ai_analyzer].  Each call either returns
    a value or raises, and moves the world on. *)
Variable search : pystr -> Z -> W -> res (list SearchRecord) * W.
Variable extract_multiple : list pystr -> W -> res (gmap pystr pystr) * W.
Variable analyze_search_results :
  pystr -> list SearchRecord -> gmap pystr pystr -> W -> res json * W.
Variable generate_follow_up_queries :
  pystr -> json -> Z -> W -> res (list pystr) * W.
Variable synthesize_research : pystr -> list round_data -> W -> res pystr * W.
(** [datetime.now()] *)
Variable now : W -> Z.

(** The injected [progress_callback], or [None]. *)
Definition callback : Type :=
  option (progress_msg -> Z -> Z -> W -> res unit * W).

(** [if progress_callback: progress_callback(message, current, total)] *)
Definition notify (progress_callback : callback) (m : progress_msg)
    (current total : Z) : M W event unit :=
  match progress_callback with
  | None => ret tt
  | Some f => fun s =>
      let '(r, s') := f m current total s in
      Out r s' [Progress m current total
                  (match r with Raise e => Some e | Ok _ => None end)]
  end.

Definition _generate_queries (topic : pystr) (previous_analysis : json)
    (round_num : Z) : M W event (list pystr) :=
  try_except
    (external (generate_follow_up_queries topic previous_analysis round_num))
    (fun e => emit (Log ERROR (QueryGenFailed e)) ;; ret []).

(** The [for query in queries] loop of a round. *)
Fixpoint search_queries (progress_callback : callback)
    (round_num max_rounds results_per_search : Z) (queries : list pystr)
    (all_search_results : list SearchRecord) (all_sources : gset pystr)
  : M W event (list SearchRecord * gset pystr) :=
  match queries with
  | [] => ret (all_search_results, all_sources)
  | query :: queries' =>
      notify progress_callback
        (MsgSearchQuery (round_num + 1) max_rounds query)
        (round_num + 1) max_rounds ;;
      results <- external (search query results_per_search) ;;
      search_queries progress_callback round_num max_rounds
        results_per_search queries'
        (all_search_results ++ results) (add_sources all_sources results)
  end.

(** One pass through the body of [for round_num in range(max_rounds)]. *)
Definition round_body (topic : pystr) (max_rounds results_per_search : Z)
    (progress_callback : callback) (round_num : Z)
    (rounds : list ResearchRound) (all_sources : gset pystr)
  : M W event (loop_ctl * (list ResearchRound * gset pystr)) :=
  emit (Log INFO (RoundBanner (round_num + 1))) ;;
  notify progress_callback (MsgRoundStart (round_num + 1) max_rounds)
    (round_num + 1) max_rounds ;;
  queries <- (if round_num =? 0 then ret [topic]
              else match last rounds with
                   | Some r => _generate_queries topic (analysis r) round_num
                   | None => raise (Exn IndexError (PyStr.lit "rounds[-1]"))
                   end) ;;
  match queries with
  | [] =>
      emit (Log INFO NoMoreQueries) ;;
      ret (Break, (rounds, all_sources))
  | query0 :: _ =>
      found <- search_queries progress_callback round_num max_rounds
                 results_per_search queries [] all_sources ;;
      let all_search_results := fst found in
      let all_sources := snd found in
      emit (Log INFO (SearchDone (length all_search_results))) ;;
      notify progress_callback (MsgExtracting (round_num + 1) max_rounds)
        (round_num + 1) max_rounds ;;
      let urls_to_extract := map url (take 10 all_search_results) in
      extracted <- external (extract_multiple urls_to_extract) ;;
      emit (Log INFO (ExtractDone (size extracted))) ;;
      notify progress_callback (MsgAnalyzing (round_num + 1) max_rounds)
        (round_num + 1) max_rounds ;;
      analysis <- external
                    (analyze_search_results query0 all_search_results extracted) ;;
      emit (Log INFO AnalysisDone) ;;
      let round_data :=
        {| round_number := round_num + 1;
           queries := queries;
           search_results := all_search_results;
           extracted_contents := extracted;
           analysis := analysis |} in
      let rounds := rounds ++ [round_data] in
      if max_rounds - 1 <=? round_num then
        emit (Log INFO MaxRoundsReached) ;;
        ret (Break, (rounds, all_sources))
      else
        gaps <- lift_res (Py.get analysis AIAnalyzer.gaps (JArr [])) ;;
        if Py.truthy gaps then ret (Continue, (rounds, all_sources))
        else
          emit (Log INFO NoGaps) ;;
          ret (Break, (rounds, all_sources))
  end.

(** The [for] loop over the round indices still to run. *)
Fixpoint research_loop (topic : pystr) (max_rounds results_per_search : Z)
    (progress_callback : callback) (todo : list Z)
    (rounds : list ResearchRound) (all_sources : gset pystr)
  : M W event (list ResearchRound * gset pystr) :=
  match todo with
  | [] => ret (rounds, all_sources)
  | round_num :: todo' =>
      step <- round_body topic max_rounds results_per_search
                progress_callback round_num rounds all_sources ;;
      match step with
      | (Break, st) => ret st
      | (Continue, (rounds, all_sources)) =>
          research_loop topic max_rounds results_per_search
            progress_callback todo' rounds all_sources
      end
  end.

(** What follows the loop: the final report and the result object. *)
Definition finish (topic : pystr) (max_rounds : Z)
    (progress_callback : callback)
    (rounds : list ResearchRound) (all_sources : gset pystr)
  : M W event ResearchResult :=
  notify progress_callback MsgReport max_rounds max_rounds ;;
  emit (Log INFO WritingReport) ;;
  let all_rounds_data := map to_round_data rounds in
  final_report <- external (synthesize_research topic all_rounds_data) ;;
  fun s =>
    (let result :=
       {| topic := topic;
          final_report := final_report;
          rounds := rounds;
          all_sources := sorted all_sources;
          timestamp := now s;
          total_rounds := length rounds |} in
     emit (Log INFO (ResearchDone (length rounds) (size all_sources))) ;;
     ret result) s.

Definition conduct_research (topic : pystr)
    (max_rounds results_per_search : option Z)
    (progress_callback : callback) : M W event ResearchResult :=
  let max_rounds := default MAX_RESEARCH_ROUNDS max_rounds in
  let results_per_search := default RESULTS_PER_SEARCH results_per_search in
  emit (Log INFO (ResearchStarted topic max_rounds)) ;;
  st <- research_loop topic max_rounds results_per_search progress_callback
          (range max_rounds) [] ∅ ;;
  finish topic max_rounds progress_callback (fst st) (snd st).

End WithCollaborators.

End Orchestrator.

(* ===================================================================== *)
(** ** The orchestrator with its collaborators wired in *)
(* ===================================================================== *)

Module System.

(** What [ResearchOrchestrator.__init__] creates: one extractor (with its
    cache) on the network, and the events the collaborators wrote. *)
Record state (Wn : Type) :=
  State { extractor : ContentExtractor.fetcher Wn; trace : list event }.
Arguments State {Wn} _ _.
Arguments extractor {Wn} _.
Arguments trace {Wn} _.

Section Wiring.
Context {Wn prompt : Type}.
Variable MAX_RESEARCH_ROUNDS RESULTS_PER_SEARCH MAX_CONCURRENT_REQUESTS : Z.
Variable ddgs_text : pystr -> Z -> Wn -> res (list SearchEngine.hit) * Wn.
Variable fetch_page : pystr -> Wn -> ContentExtractor.page * Wn.
Variable call_api : prompt -> Wn -> res pystr * Wn.
Variable json_loads : pystr -> option json.
Variable analysis_prompt :
  pystr -> list SearchRecord -> gmap pystr pystr -> prompt.
Variable synthesis_prompt : pystr -> list (list pystr * list json) -> prompt.
(** [AIAnalyzer.generate_follow_up_queries] is kept as a parameter. *)
Variable generate_follow_up_queries :
  pystr -> json -> Z -> Wn -> res (list pystr) * Wn.
Variable now : Wn -> Z.

(** A call into a collaborator that only uses the network. *)
Definition on_network {A} (m : M Wn event A) (st : state Wn)
  : res A * state Wn :=
  let o := m (ContentExtractor.net (extractor st)) in
  (val o,
   State (ContentExtractor.Fetcher (post o)
            (ContentExtractor.cache (extractor st)))
         (trace st ++ emitted o)).

(** A call into the content extractor. *)
Definition on_extractor {A} (m : M (ContentExtractor.fetcher Wn) event A)
    (st : state Wn) : res A * state Wn :=
  let o := m (extractor st) in
  (val o, State (post o) (trace st ++ emitted o)).

Definition conduct_research (topic : pystr)
    (max_rounds results_per_search : option Z)
    (progress_callback : Orchestrator.callback (W := state Wn))
  : M (state Wn) event Orchestrator.ResearchResult :=
  Orchestrator.conduct_research MAX_RESEARCH_ROUNDS RESULTS_PER_SEARCH
    (fun query n =>
       on_network (SearchEngine.search RESULTS_PER_SEARCH ddgs_text query (Some n)))
    (fun urls =>
       on_extractor
         (ContentExtractor.extract_multiple MAX_CONCURRENT_REQUESTS fetch_page
            urls None))
    (fun query results contents =>
       on_network
         (AIAnalyzer.analyze_search_results call_api json_loads analysis_prompt
            query results contents))
    (fun topic analysis n =>
       on_network (external (generate_follow_up_queries topic analysis n)))
    (fun topic all_rounds =>
       on_network
         (AIAnalyzer.synthesize_research call_api synthesis_prompt
            topic all_rounds))
    (fun st => now (ContentExtractor.net (extractor st)))
    topic max_rounds results_per_search progress_callback.

End Wiring.

End System.

(* ===================================================================== *)
(** ** app.py: the choice of the model *)
(* ===================================================================== *)

Module App.

Definition is_value_error (e : exn) : bool :=
  match exn_cls e with ValueError => true | _ => false end.

(** The entries of the model select box: one for each of the OpenAI and
    Anthropic keys that is set. *)
Definition ai_options (settings : Settings.env) : list pystr :=
  (if Settings.is_set (Settings.OPENAI_API_KEY settings)
   then [PyStr.lit "OpenAI GPT-4"] else [])
  ++ (if Settings.is_set (Settings.ANTHROPIC_API_KEY settings)
      then [PyStr.lit "Anthropic Claude"] else []).

(** [AIProvider.OPENAI if "OpenAI" in ai_choice else AIProvider.ANTHROPIC] *)
Definition ai_provider (ai_choice : pystr) : AIAnalyzer.AIProvider :=
  if PyStr.contains (PyStr.lit "OpenAI") ai_choice
  then AIAnalyzer.OPENAI else AIAnalyzer.ANTHROPIC.

Section WithFilesystem.
Context {W E : Type}.
Variable mkdir_output_dir : W -> res unit * W.

(** [validate_api_keys]: a [ValueError] of [settings.validate] is shown
    to the user and answered with [False]. *)
Definition validate_api_keys (settings : Settings.env) : M W E bool :=
  try_except
    (Settings.validate mkdir_output_dir settings ;;
     ret true)
    (fun e => if is_value_error e then ret false else raise e).

End WithFilesystem.

End App.

(* ===================================================================== *)
(** ** utils/export_manager.py *)
(* ===================================================================== *)

Module ExportManager.

(** The records the export manager hands to its logger. *)
Inductive export_log :=
| MarkdownExported (filepath : pystr)
| MarkdownFailed (e : exn)
| PdfExported (filepath : pystr)
| PdfFailed (e : exn).

Section WithFilesystem.
Context {W : Type}.
(** [str.isalnum] on one code point, as Python's Unicode tables have it. *)
Variable isalnum : N -> bool.
(** [datetime.now().strftime("%Y%m%d_%H%M%S")] *)
Variable timestamp : W -> pystr.
(** [self.output_dir / filename], as a string. *)
Variable joinpath : pystr -> pystr -> pystr.
(** [open(filepath, 'w', encoding='utf-8')] and [f.write(content)] *)
Variable write_text : pystr -> pystr -> W -> res unit * W.
(** The conversion of the Markdown text to HTML and of the HTML page to
    a PDF file at [filepath]; it is all inside the [try] of [export_pdf]. *)
Variable write_pdf : pystr -> pystr -> W -> res unit * W.

(** [c if c.isalnum() or c in (' ', '-', '_') else '_'] *)
Definition safe_char (c : N) : N :=
  if isalnum c || (c =? 32)%N || (c =? 45)%N || (c =? 95)%N then c
  else 95%N.

(** A character that [safe_char] leaves as it is. *)
Definition allowed (c : N) : Prop :=
  isalnum c = true \/ c = 32%N \/ c = 45%N \/ c = 95%N.

(** [safe_topic], after the clean-up and the cut to 50 characters. *)
Definition safe_topic (topic : pystr) : pystr :=
  take 50 (PyStr.strip (map safe_char topic)).

Definition _generate_filename (topic extension : pystr)
  : M W (level * export_log) pystr := fun s =>
  Out (Ok (safe_topic topic ++ PyStr.lit "_" ++ timestamp s
           ++ PyStr.lit "." ++ extension)) s [].

(** [if not filename: filename = self._generate_filename(topic, ext)] *)
Definition filename_or_generated (filename : option pystr)
    (topic extension : pystr) : M W (level * export_log) pystr :=
  match filename with
  | Some (c :: name) => ret (c :: name)
  | _ => _generate_filename topic extension
  end.

Definition export_markdown (output_dir content topic : pystr)
    (filename : option pystr) : M W (level * export_log) pystr :=
  filename <- filename_or_generated filename topic (PyStr.lit "md") ;;
  let filepath := joinpath output_dir filename in
  try_except
    (external (write_text filepath content) ;;
     emit (INFO, MarkdownExported filepath) ;;
     ret filepath)
    (fun e => emit (ERROR, MarkdownFailed e) ;; raise e).

Definition export_pdf (output_dir content topic : pystr)
    (filename : option pystr) : M W (level * export_log) pystr :=
  filename <- filename_or_generated filename topic (PyStr.lit "pdf") ;;
  let filepath := joinpath output_dir filename in
  try_except
    (external (write_pdf filepath content) ;;
     emit (INFO, PdfExported filepath) ;;
     ret filepath)
    (fun e => emit (ERROR, PdfFailed e) ;; raise e).

Definition export_both (output_dir content topic : pystr)
  : M W (level * export_log) (pystr * pystr) :=
  base_filename <- _generate_filename topic [] ;;
  let base_filename := PyStr.slice_drop_last 1 base_filename in
  md_path <- export_markdown output_dir content topic
               (Some (base_filename ++ PyStr.lit ".md")) ;;
  pdf_path <- export_pdf output_dir content topic
                (Some (base_filename ++ PyStr.lit ".pdf")) ;;
  ret (md_path, pdf_path).

End WithFilesystem.

End ExportManager.

(* ===================================================================== *)
(** ** Test doubles: small concrete worlds for running the model *)
(* ===================================================================== *)

Module Doubles.

(** The world is the number of external calls made so far. *)
Definition tick {A} (r : A) (w : nat) : A * nat := (r, S w).

Definition boom : exn := Exn RuntimeError (PyStr.lit "boom").

Definition hit_of (href : option pystr) : SearchEngine.hit :=
  {| SearchEngine.hit_title := Some (PyStr.lit "title");
     SearchEngine.hit_href := href;
     SearchEngine.hit_body := Some (PyStr.lit "body") |}.

Definition a_com : pystr := PyStr.lit "a.com".
Definition b_com : pystr := PyStr.lit "b.com".

(** A provider with two hits for every query, of which it hands out at
    most [max_results]. *)
Definition ddgs_two (query : pystr) (max_results : Z)
  : nat -> res (list SearchEngine.hit) * nat :=
  tick (Ok (take (Z.to_nat max_results)
              [hit_of (Some b_com); hit_of (Some a_com)])).


(** A provider whose only hit has no [href]. *)
Definition ddgs_no_href (query : pystr) (max_results : Z)
  : nat -> res (list SearchEngine.hit) * nat :=
  tick (Ok (take (Z.to_nat max_results) [hit_of None])).

(** Every page has the text "text". *)
Definition page_text (url : pystr) : nat -> ContentExtractor.page * nat :=
  tick (ContentExtractor.MainContent (PyStr.lit "text")).




Definition fresh : ContentExtractor.fetcher nat :=
  ContentExtractor.Fetcher 0%nat ∅.


Inductive prompt := AnalysisPrompt | SynthesisPrompt.

Definition quote : pystr := [34%N].

(** The JSON documents the doubles of the model answer with. *)
Definition doc_empty : pystr := PyStr.lit "{}".
Definition doc_no_gaps : pystr :=
  PyStr.lit "{" ++ quote ++ PyStr.lit "gaps" ++ quote ++ PyStr.lit ": []}".
Definition doc_gaps : pystr :=
  PyStr.lit "{" ++ quote ++ PyStr.lit "gaps" ++ quote ++ PyStr.lit ": ["
  ++ quote ++ PyStr.lit "more" ++ quote ++ PyStr.lit "]}".

(** [json.loads] on the documents above; the other texts the doubles
    produce are not JSON. *)
Definition loads (text : pystr) : option json :=
  if bool_decide (text = doc_empty) then Some (JObj [])
  else if bool_decide (text = doc_no_gaps)
  then Some (JObj [(AIAnalyzer.gaps, JArr [])])
  else if bool_decide (text = doc_gaps)
  then Some (JObj [(AIAnalyzer.gaps, JArr [JStr (PyStr.lit "more")])])
  else None.

(** A model that answers every analysis with [analysis] and every
    synthesis with the report "# Report". *)
Definition model (analysis : pystr) (p : prompt) : nat -> res pystr * nat :=
  match p with
  | AnalysisPrompt => tick (Ok analysis)
  | SynthesisPrompt => tick (Ok (PyStr.lit "# Report"))
  end.


(** A model that answers in a code fence with something that is no JSON. *)
Definition model_chatty (p : prompt) : nat -> res pystr * nat :=
  tick (Ok (PyStr.lit "  ```json hello ```  ")).

Definition follow_up (topic : pystr) (analysis : json) (n : Z)
  : nat -> res (list pystr) * nat :=
  tick (Ok [PyStr.lit "follow-up"]).


Definition clock (w : nat) : Z := Z.of_nat w.

(** The wired system over these doubles. *)
Definition research ddgs analysis follow :=
  System.conduct_research 3 10 5 ddgs page_text (model analysis) loads
    (fun _ _ _ => AnalysisPrompt) (fun _ _ => SynthesisPrompt) follow clock.

Definition start : System.state nat := System.State fresh [].

(** Callbacks: one that raises at every call, one that raises when the
    extraction of a round starts, one that never raises. *)
Definition cb_raises : Orchestrator.callback (W := System.state nat) :=
  Some (fun _ _ _ st => (Raise boom, st)).

Definition cb_raises_at_extraction
  : Orchestrator.callback (W := System.state nat) :=
  Some (fun m _ _ st =>
          match m with
          | MsgExtracting _ _ => (Raise boom, st)
          | _ => (Ok tt, st)
          end).

Definition topic : pystr := PyStr.lit "quantum computing".


(** No page can be fetched; every page fails to parse. *)
Definition page_down (url : pystr) : nat -> ContentExtractor.page * nat :=
  tick (ContentExtractor.RequestFailed boom).
Definition page_broken (url : pystr) : nat -> ContentExtractor.page * nat :=
  tick (ContentExtractor.OtherFailure boom).

(** Every page has a text of 6000 characters. *)
Definition page_long (url : pystr) : nat -> ContentExtractor.page * nat :=
  tick (ContentExtractor.MainContent (replicate (60 * 100) 97%N)).

(** The model's answer with four follow-up queries, and [json.loads] on
    it. *)
Definition doc_queries : pystr :=
  PyStr.lit "[" ++ quote ++ PyStr.lit "q1" ++ quote ++ PyStr.lit ", "
  ++ quote ++ PyStr.lit "q2" ++ quote ++ PyStr.lit ", "
  ++ quote ++ PyStr.lit "q3" ++ quote ++ PyStr.lit ", "
  ++ quote ++ PyStr.lit "q4" ++ quote ++ PyStr.lit "]".

Definition loads_queries (text : pystr) : option json :=
  if bool_decide (text = doc_queries)
  then Some (JArr [JStr (PyStr.lit "q1"); JStr (PyStr.lit "q2");
                   JStr (PyStr.lit "q3"); JStr (PyStr.lit "q4")])
  else None.

(** An analysis that reports one gap. *)
Definition analysis_with_gap : json :=
  JObj [(AIAnalyzer.gaps, JArr [JStr (PyStr.lit "more")])].



End Doubles.

(** "The deduplicated, sorted union of every [url] across every round's
    [search_results]", word for word. *)
Definition union_of_urls (rounds : list Orchestrator.ResearchRound)
  : list pystr :=
  sorted (list_to_set
            (concat (map (fun rd => map url (Orchestrator.search_results rd))
                       rounds))).

(* ===================================================================== *)
(** * The vocabulary of the properties *)
(* ===================================================================== *)

(** The round numbers announced in a log, in order. *)
Fixpoint banners (evs : list event) : list Z :=
  match evs with
  | [] => []
  | Log INFO (RoundBanner n) :: evs' => n :: banners evs'
  | _ :: evs' => banners evs'
  end.

(** The exceptions the progress callback raised, in order. *)
Fixpoint raised_in (evs : list event) : list exn :=
  match evs with
  | [] => []
  | Progress _ _ _ (Some x) :: evs' => x :: raised_in evs'
  | _ :: evs' => raised_in evs'
  end.

(** The exceptions [_generate_queries] caught and logged, in order. *)
Fixpoint gen_failures (evs : list event) : list exn :=
  match evs with
  | [] => []
  | Log ERROR (QueryGenFailed x) :: evs' => x :: gen_failures evs'
  | _ :: evs' => gen_failures evs'
  end.

(** What a run can owe to the callback: either the callback never raised,
    or its first raise is the last event of the run and is the run's
    outcome. *)
Definition callback_status {A} (v : res A) (evs : list event) : Prop :=
  raised_in evs = [] \/
  exists pre m c t e,
    evs = pre ++ [Progress m c t (Some e)] /\ raised_in pre = [] /\ v = Raise e.

(** The stop test of the continue decision, on a completed round. *)
Definition no_gaps (a : json) : bool :=
  match Py.get a AIAnalyzer.gaps (JArr []) with
  | Ok g => negb (Py.truthy g)
  | Raise _ => false
  end.

Definition stops (max_rounds : Z) (rd : Orchestrator.ResearchRound) : bool :=
  (max_rounds <=? Orchestrator.round_number rd)
  || no_gaps (Orchestrator.analysis rd).

(** The round numbers [a+1, ..., a+k]. *)
Definition numbers (a k : nat) : list Z :=
  map (fun i => Z.of_nat i + 1) (seq a k).

(** What a completed round is made of, in terms of the calls the
    orchestrator made to its collaborators. *)
Section RoundProvenance.
Import Orchestrator.
Context {W : Type}.
Variable search : pystr -> Z -> W -> res (list SearchRecord) * W.
Variable extract_multiple : list pystr -> W -> res (gmap pystr pystr) * W.
Variable analyze_search_results :
  pystr -> list SearchRecord -> gmap pystr pystr -> W -> res json * W.
Variable generate_follow_up_queries :
  pystr -> json -> Z -> W -> res (list pystr) * W.

(** [results] is what the searches for [queries] returned, one query
    after the other. *)
Definition searched (results_per_search : Z) (queries : list pystr)
    (results : list SearchRecord) : Prop :=
  exists per_query,
    results = concat per_query /\
    Forall2 (fun q rs => exists w w', search q results_per_search w = (Ok rs, w'))
      queries per_query.

(** Round [round_num + 1], completed after the rounds [before]. *)
Definition made (topic : pystr) (results_per_search round_num : Z)
    (before : list ResearchRound) (rd : ResearchRound) : Prop :=
  round_number rd = round_num + 1 /\
  ((round_num = 0 /\ queries rd = [topic]) \/
   (round_num <> 0 /\
    exists prev w w',
      last before = Some prev /\
      generate_follow_up_queries topic (analysis prev) round_num w
      = (Ok (queries rd), w'))) /\
  searched results_per_search (queries rd) (search_results rd) /\
  (exists w w',
     extract_multiple (map url (take 10 (search_results rd))) w
     = (Ok (extracted_contents rd), w')) /\
  (exists query0 w w',
     head (queries rd) = Some query0 /\
     analyze_search_results query0 (search_results rd) (extracted_contents rd) w
     = (Ok (analysis rd), w')).

End RoundProvenance.

(** An analysis that both the prompt digest and the fallback report can
    read: a dict whose [summary], when present, is a string and whose
    [key_findings], when present, is a list or a string. *)
Definition readable (a : json) : bool :=
  match a with
  | JObj kv =>
      match Py.assoc AIAnalyzer.summary kv with
      | Some (JStr _) | None => true
      | Some _ => false
      end
      && match Py.assoc AIAnalyzer.key_findings kv with
         | Some (JArr _) | Some (JStr _) | None => true
         | Some _ => false
         end
  | _ => false
  end.

(** The URLs requested over HTTP, in order. *)
Fixpoint http_gets (evs : list event) : list pystr :=
  match evs with
  | [] => []
  | HttpGet u :: evs' => u :: http_gets evs'
  | _ :: evs' => http_gets evs'
  end.

(** The URLs a log reports as extracted, in order. *)
Fixpoint extraction_logs (evs : list event) : list pystr :=
  match evs with
  | [] => []
  | Log INFO (Extracted u _) :: evs' => u :: extraction_logs evs'
  | _ :: evs' => extraction_logs evs'
  end.

(** No URL is requested after the log has reported it as extracted. *)
Fixpoint no_refetch (evs : list event) : bool :=
  match evs with
  | [] => true
  | Log INFO (Extracted u _) :: evs' =>
      negb (bool_decide (u ∈ http_gets evs')) && no_refetch evs'
  | _ :: evs' => no_refetch evs'
  end.


(** The wired system is in order: its trace requests no URL again that
    it has reported as extracted, and every URL it has reported as
    extracted is in the cache of the extractor. *)
Definition in_order {Wn : Type} (st : System.state Wn) : Prop :=
  no_refetch (System.trace st) = true /\
  Forall (fun u => is_Some (ContentExtractor.cache (System.extractor st) !! u))
    (extraction_logs (System.trace st)).

#[global] Instance in_order_dec {Wn : Type} (st : System.state Wn) :
  Decision (in_order st).
Proof. unfold in_order. apply _. Defined.

(** The arguments [(current, total)] of the progress calls, in order. *)
Fixpoint progress_calls (evs : list event) : list (Z * Z) :=
  match evs with
  | [] => []
  | Progress _ current total _ :: evs' => (current, total) :: progress_calls evs'
  | _ :: evs' => progress_calls evs'
  end.

(** A text no longer than the length limit leaves it: the first
    [MAX_CONTENT_LENGTH] characters and the three dots. *)
Definition within_limit (text : pystr) : Prop :=
  (length text <= settings.MAX_CONTENT_LENGTH + 3)%nat.

(* ===================================================================== *)
(** * Properties *)
(* ===================================================================== *)

(** ** The search engine *)

Section SearchEngineFacts.
Context {W : Type}.
Variable RESULTS_PER_SEARCH : Z.
Variable ddgs_text : pystr -> Z -> W -> res (list SearchEngine.hit) * W.


(** [search] returns a list, whatever the provider does. *)
Lemma search_always_returns (query : pystr) (max_results : option Z) (w : W) :
  exists records w' evs,
    SearchEngine.search RESULTS_PER_SEARCH ddgs_text query max_results w
    = Out (Ok records) w' evs.
Proof.
  unfold SearchEngine.search.
  unfold bind, emit, try_except, external, ret; simpl.
  unfold bind, emit, try_except, external, ret; simpl.
  destruct (ddgs_text query _ w) as [[h1|e1] w1]; simpl; [eauto|].
  destruct (ddgs_text query _ w1) as [[h2|e2] w2]; simpl; [eauto|].
  destruct (ddgs_text query _ w2) as [[h3|e3] w3]; simpl; eauto.
Qed.




Lemma pauses_app (l1 l2 : list SearchEngine.throttled) :
  SearchEngine.pauses (l1 ++ l2)
  = SearchEngine.pauses l1 ++ SearchEngine.pauses l2.
Proof.
  induction l1 as [|e l1 IH]; [reflexivity|].
  destruct e; simpl; rewrite ?IH; reflexivity.
Qed.

Lemma pauses_searching (evs : list event) :
  SearchEngine.pauses (map SearchEngine.Searching evs) = [].
Proof. induction evs as [|e evs IH]; [reflexivity|exact IH]. Qed.

(** The loop of [search_multiple] adds the result of a search for every
    query to the mapping it was given, and pauses once per query. *)
Lemma search_multiple_loop_run queries max_results acc (w : W) :
  exists results w' evs,
    SearchEngine.search_multiple_loop RESULTS_PER_SEARCH ddgs_text
      queries max_results acc w = Out (Ok results) w' evs /\
    (forall q, is_Some (results !! q) <-> q ∈ queries \/ is_Some (acc !! q)) /\
    (forall q rs, results !! q = Some rs ->
       (q ∈ queries /\
        exists w1,
          val (SearchEngine.search RESULTS_PER_SEARCH ddgs_text q max_results w1)
          = Ok rs) \/
       acc !! q = Some rs) /\
    SearchEngine.pauses evs
    = replicate (length queries) SearchEngine.half_a_second.
Proof.
  revert acc w. induction queries as [|query queries IH]; intros acc w.
  { exists acc, w, []. split; [reflexivity|]. split.
    - intros q. rewrite elem_of_nil. tauto.
    - split; [auto|reflexivity]. }
  cbn [SearchEngine.search_multiple_loop]. unfold bind, relabel, emit.
  destruct (search_always_returns query max_results w) as (found & w1 & evs1 & Hs).
  rewrite Hs.
  destruct (IH (<[query := found]> acc) w1)
    as (results & w2 & evs2 & -> & Hdom & Hval & Hp).
  exists results, w2. eexists. split; [reflexivity|]. split; [|split].
  - intros q. rewrite Hdom, elem_of_cons, lookup_insert_is_Some.
    destruct (decide (query = q)) as [->|Hne]; [tauto|].
    split; [intros [?|[?|[_ ?]]]|intros [[?|?]|?]]; auto; congruence.
  - intros q rs Hq.
    destruct (Hval q rs Hq) as [(Hin & w3 & Hv)|Hacc].
    + left. split; [by apply list_elem_of_further|eauto].
    + destruct (decide (query = q)) as [->|Hne].
      * rewrite lookup_insert_eq in Hacc. injection Hacc as <-.
        left. split; [apply list_elem_of_here|].
        exists w. by rewrite Hs.
      * rewrite lookup_insert_ne in Hacc by done. by right.
  - rewrite pauses_app, pauses_searching. simpl. by rewrite Hp.
Qed.

(** X13. [search_multiple] never raises.  The mapping it returns has
    exactly the queries it was given as keys, each with a list that a
    search for that query returned; and it pauses for half a second after
    every query, the last one included. *)
Theorem search_multiple_answers_every_query queries max_results (w : W) :
  let o := SearchEngine.search_multiple RESULTS_PER_SEARCH ddgs_text
             queries max_results w in
  exists results,
    val o = Ok results /\
    (forall q, is_Some (results !! q) <-> q ∈ queries) /\
    (forall q rs, results !! q = Some rs ->
       exists w1,
         val (SearchEngine.search RESULTS_PER_SEARCH ddgs_text q max_results w1)
         = Ok rs) /\
    SearchEngine.pauses (emitted o)
    = replicate (length queries) SearchEngine.half_a_second.
Proof.
  intros o. subst o. unfold SearchEngine.search_multiple.
  destruct (search_multiple_loop_run queries max_results ∅ w)
    as (results & w' & evs & -> & Hdom & Hval & Hp).
  exists results. split; [reflexivity|]. split; [|split; [|exact Hp]].
  - intros q. rewrite Hdom, lookup_empty. split; [|auto].
    intros [H|H]; [exact H|]. by destruct H.
  - intros q rs Hq. destruct (Hval q rs Hq) as [(_ & H)|H]; [exact H|].
    by rewrite lookup_empty in H.
Qed.

End SearchEngineFacts.

(** ** The content extractor *)

Section ContentExtractorFacts.
Import ContentExtractor.
Context {W : Type}.
Variable MAX_CONCURRENT_REQUESTS : Z.
Variable fetch_page : pystr -> W -> page * W.

(** The retry loop never raises; it either leaves the cache alone and
    returns [None], or stores the text it returns under the URL. *)
Lemma fetch_loop_outcome fuel url retry_count (s : fetcher W) v s' evs :
  fetch_loop fetch_page fuel url retry_count s = Out v s' evs ->
  (v = Ok None /\ cache s' = cache s) \/
  (exists content, v = Ok (Some content) /\
                   cache s' = <[url := content]> (cache s)).
Proof.
  revert retry_count s evs.
  induction fuel as [|fuel IH]; intros retry_count s evs; simpl.
  { intros [= <- <- <-]. left. split; reflexivity. }
  destruct (retry_count <? settings.MAX_RETRIES);
    [|intros [= <- <- <-]; left; split; reflexivity].
  unfold bind at 1, get_page.
  destruct (fetch_page url (net s)) as [[e|e| |content] w'] eqn:Hp; simpl.
  - destruct (retry_count + 1 <? settings.MAX_RETRIES); simpl.
    + unfold bind, emit. simpl.
      destruct (fetch_loop fetch_page fuel url (retry_count + 1) _)
        as [v1 s1 evs1] eqn:Hloop.
      intros [= <- <- <-]. apply IH in Hloop. exact Hloop.
    + intros [= <- <- <-]. left. split; reflexivity.
  - intros [= <- <- <-]. left. split; reflexivity.
  - intros [= <- <- <-]. left. split; reflexivity.
  - intros [= <- <- <-]. right. eexists. split; reflexivity.
Qed.

Lemma extract_content_cached url content (s : fetcher W) :
  cache s !! url = Some content ->
  extract_content fetch_page url s
  = Out (Ok (Some content)) s [Log DEBUG (CacheHit url)].
Proof. unfold extract_content. intros ->. reflexivity. Qed.

Lemma extract_content_outcome url (s : fetcher W) :
  let o := extract_content fetch_page url s in
  (val o = Ok None /\ cache (post o) = cache s) \/
  (exists content, val o = Ok (Some content) /\
                   cache (post o) = <[url := content]> (cache s)).
Proof.
  unfold extract_content.
  destruct (cache s !! url) as [c|] eqn:Hc.
  - right. exists c. split; [reflexivity|]. symmetry. by apply insert_id.
  - unfold bind, emit.
    destruct (fetch_loop fetch_page (Z.to_nat settings.MAX_RETRIES) url 0 s)
      as [v p evs] eqn:Hloop.
    apply fetch_loop_outcome in Hloop. exact Hloop.
Qed.

(** A successful extraction leaves its text in the cache. *)
Lemma extract_content_stores url content (s : fetcher W) :
  val (extract_content fetch_page url s) = Ok (Some content) ->
  cache (post (extract_content fetch_page url s)) !! url = Some content.
Proof.
  intros Hv.
  destruct (extract_content_outcome url s) as [[Hv' _]|[c [Hv' Hc]]];
    rewrite Hv in Hv'; [discriminate|].
  injection Hv' as ->. rewrite Hc. apply lookup_insert_eq.
Qed.

(** No extraction, of any URL, disturbs an entry already cached. *)
Lemma extract_content_keeps url' url content (s : fetcher W) :
  cache s !! url = Some content ->
  cache (post (extract_content fetch_page url' s)) !! url = Some content.
Proof.
  intros Hc. destruct (decide (url' = url)) as [->|Hne].
  - by rewrite (extract_content_cached _ _ _ Hc).
  - destruct (extract_content_outcome url' s) as [[_ Hk]|[c [_ Hk]]]; rewrite Hk.
    + exact Hc.
    + by rewrite lookup_insert_ne.
Qed.




#[local] Arguments nonempty : simpl never.





#[local] Arguments limit_length : simpl never.


(** The retry loop asks for its own URL only, at most once per unit of
    the loop variant. *)
Lemma fetch_loop_requests fuel url retry_count (s : fetcher W) v s' evs :
  fetch_loop fetch_page fuel url retry_count s = Out v s' evs ->
  exists k, (k <= fuel)%nat /\ http_gets evs = replicate k url.
Proof.
  revert retry_count s evs.
  induction fuel as [|fuel IH]; intros retry_count s evs; simpl.
  { intros [= <- <- <-]. exists 0%nat. split; [lia|reflexivity]. }
  destruct (retry_count <? settings.MAX_RETRIES);
    [|intros [= <- <- <-]; exists 0%nat; split; [lia|reflexivity]].
  unfold bind at 1, get_page.
  destruct (fetch_page url (net s)) as [[e|e| |content] w'] eqn:Hp; simpl.
  - destruct (retry_count + 1 <? settings.MAX_RETRIES); simpl.
    + unfold bind, emit. simpl.
      destruct (fetch_loop fetch_page fuel url (retry_count + 1) _)
        as [v1 s1 evs1] eqn:Hloop.
      intros [= <- <- <-]. apply IH in Hloop as (k & Hk & Hg).
      exists (S k). split; [lia|]. simpl. by rewrite Hg.
    + intros [= <- <- <-]. exists 1%nat. split; [lia|reflexivity].
  - intros [= <- <- <-]. exists 1%nat. split; [lia|reflexivity].
  - intros [= <- <- <-]. exists 1%nat. split; [lia|reflexivity].
  - intros [= <- <- <-]. exists 1%nat. split; [lia|reflexivity].
Qed.

Lemma extract_content_requests url (s : fetcher W) :
  exists k, (k <= Z.to_nat settings.MAX_RETRIES)%nat /\
    http_gets (emitted (extract_content fetch_page url s)) = replicate k url.
Proof.
  unfold extract_content.
  destruct (cache s !! url) as [c|].
  - exists 0%nat. split; [lia|reflexivity].
  - unfold bind, emit.
    destruct (fetch_loop fetch_page (Z.to_nat settings.MAX_RETRIES) url 0 s)
      as [v p evs] eqn:Hloop.
    apply fetch_loop_requests in Hloop as (k & Hk & Hg).
    exists k. split; [exact Hk|exact Hg].
Qed.

(** X2. [extract_content] never raises and touches nothing but its own
    URL: it sends at most [MAX_RETRIES] requests, all of them for [url];
    the cache entries of the other URLs stay as they were; a call that
    returns [None] leaves the whole cache as it was (a failure is not
    remembered), and a call that returns a text leaves that text in the
    cache under [url]. *)
Theorem extract_content_contained url (s : fetcher W) :
  let o := extract_content fetch_page url s in
  (exists r, val o = Ok r) /\
  (exists k, (k <= Z.to_nat settings.MAX_RETRIES)%nat /\
             http_gets (emitted o) = replicate k url) /\
  (forall u, u <> url -> cache (post o) !! u = cache s !! u) /\
  (val o = Ok None -> cache (post o) = cache s) /\
  (forall text, val o = Ok (Some text) -> cache (post o) !! url = Some text).
Proof.
  intros o. pose proof (extract_content_requests url s) as Hreq.
  fold o in Hreq.
  destruct (extract_content_outcome url s) as [[Hv Hc]|[c [Hv Hc]]];
    fold o in Hv, Hc.
  - split; [eauto|]. split; [exact Hreq|]. split; [by rewrite Hc|].
    split; [auto|]. intros text Ht. rewrite Hv in Ht. discriminate.
  - split; [eauto|]. split; [exact Hreq|].
    split; [intros u Hu; by rewrite Hc, lookup_insert_ne|].
    split; [intros Hn; rewrite Hv in Hn; discriminate|].
    intros text Ht. rewrite Hv in Ht. injection Ht as <-.
    rewrite Hc. apply lookup_insert_eq.
Qed.

(** X3. The retry policy of [extract_content] for a URL that is not
    cached.  When every request fails with a [RequestException], it sends
    exactly [MAX_RETRIES] requests, sleeps [RETRY_DELAY * 2^(k-1)] seconds
    after the k-th failure but the last, and returns [None].  When the
    first request ends in any other exception, or in a page with neither
    main element nor body, it returns [None] after that one request:
    these are not retried.  The cache is left as it was. *)
Theorem extract_content_retry_policy url (s : fetcher W) :
  cache s !! url = None ->
  let o := extract_content fetch_page url s in
  ((forall w, exists e w', fetch_page url w = (RequestFailed e, w')) ->
   val o = Ok None /\
   http_gets (emitted o) = replicate (Z.to_nat settings.MAX_RETRIES) url /\
   SearchEngine.sleeps (emitted o)
   = [settings.RETRY_DELAY * 2 ^ 0; settings.RETRY_DELAY * 2 ^ 1] /\
   cache (post o) = cache s) /\
  (forall p w',
     fetch_page url (net s) = (p, w') ->
     (p = NoMainContent \/ exists e, p = OtherFailure e) ->
     val o = Ok None /\ http_gets (emitted o) = [url] /\
     SearchEngine.sleeps (emitted o) = [] /\
     post o = Fetcher w' (cache s)).
Proof.
  intros Hmiss o. subst o. unfold extract_content. rewrite Hmiss.
  split.
  - intros Hfail.
    unfold bind, emit, get_page, ret; simpl.
    unfold bind, emit, get_page, ret; simpl.
    destruct (Hfail (net s)) as (e1 & w1 & ->); simpl.
    destruct (Hfail w1) as (e2 & w2 & ->); simpl.
    destruct (Hfail w2) as (e3 & w3 & ->); simpl.
    repeat split; reflexivity.
  - intros p w' Hp Hkind.
    unfold bind, emit, get_page, ret; simpl.
    unfold bind, emit, get_page, ret; simpl.
    rewrite Hp. destruct Hkind as [->|[e ->]]; simpl; repeat split; reflexivity.
Qed.

(** The length limit: a text within the limit is kept whole, a longer one
    is cut to its first [MAX_CONTENT_LENGTH] characters and three dots. *)
Lemma limit_length_within (content : pystr) :
  within_limit (limit_length content).
Proof.
  unfold within_limit, limit_length.
  destruct (Nat.ltb_spec settings.MAX_CONTENT_LENGTH (length content)).
  - rewrite length_app, length_take.
    change (length (PyStr.lit "...")) with 3%nat. lia.
  - lia.
Qed.

Lemma fetch_loop_within fuel url retry_count (s : fetcher W) v s' evs text :
  fetch_loop fetch_page fuel url retry_count s = Out v s' evs ->
  v = Ok (Some text) -> within_limit text.
Proof.
  revert retry_count s evs.
  induction fuel as [|fuel IH]; intros retry_count s evs; simpl.
  { intros [= <- <- <-]. discriminate. }
  destruct (retry_count <? settings.MAX_RETRIES);
    [|intros [= <- <- <-]; discriminate].
  unfold bind at 1, get_page.
  destruct (fetch_page url (net s)) as [[e|e| |content] w'] eqn:Hp; simpl.
  - destruct (retry_count + 1 <? settings.MAX_RETRIES); simpl.
    + unfold bind, emit. simpl.
      destruct (fetch_loop fetch_page fuel url (retry_count + 1) _)
        as [v1 s1 evs1] eqn:Hloop.
      intros [= <- <- <-]. by eapply IH.
    + intros [= <- <- <-]. discriminate.
  - intros [= <- <- <-]. discriminate.
  - intros [= <- <- <-]. discriminate.
  - intros [= <- <- <-] [= <-]. apply limit_length_within.
Qed.

(** Extractions keep a cache of texts within the limit that way, and
    return such texts from it. *)
Lemma extract_content_within url (s : fetcher W) :
  map_Forall (fun _ text => within_limit text) (cache s) ->
  let o := extract_content fetch_page url s in
  map_Forall (fun _ text => within_limit text) (cache (post o)) /\
  (forall text, val o = Ok (Some text) -> within_limit text).
Proof.
  intros Hall o.
  assert (Hret : forall text, val o = Ok (Some text) -> within_limit text).
  { subst o. unfold extract_content.
    destruct (cache s !! url) as [c|] eqn:Hc.
    - simpl. intros text [= <-]. by eapply Hall.
    - unfold bind, emit.
      destruct (fetch_loop fetch_page (Z.to_nat settings.MAX_RETRIES) url 0 s)
        as [v p evs] eqn:Hloop.
      simpl. intros text ->. by eapply fetch_loop_within. }
  split; [|exact Hret].
  destruct (extract_content_outcome url s) as [[Hv Hc]|[c [Hv Hc]]];
    fold o in Hv, Hc; rewrite Hc; [exact Hall|].
  apply map_Forall_insert_2; [by apply Hret|exact Hall].
Qed.

Lemma collect_within urls results (s : fetcher W) :
  map_Forall (fun _ text => within_limit text) (cache s) ->
  map_Forall (fun _ text => within_limit text)
    (cache (post (collect (extract_content fetch_page) urls results s))).
Proof.
  revert results s. induction urls as [|u urls IH]; intros results s Hall; simpl.
  { exact Hall. }
  destruct (extract_content_within u s Hall) as [Hk _].
  unfold bind, try_except.
  destruct (extract_content fetch_page u s) as [[c|e] p evs]; simpl in *.
  - destruct (nonempty c) as [t|]; simpl.
    + specialize (IH (<[u:=t]> results) p Hk).
      destruct (collect _ urls _ p); simpl in *. exact IH.
    + specialize (IH results p Hk).
      destruct (collect _ urls _ p); simpl in *. exact IH.
  - specialize (IH results p Hk).
    destruct (collect _ urls _ p); simpl in *. exact IH.
Qed.

Lemma fetcher_steps_within (s0 s : fetcher W) :
  rtc (fetcher_step MAX_CONCURRENT_REQUESTS fetch_page) s0 s ->
  map_Forall (fun _ text => within_limit text) (cache s0) ->
  map_Forall (fun _ text => within_limit text) (cache s).
Proof.
  intros Hrtc. induction Hrtc as [|x y z Hxy _ IH]; [auto|].
  intros H0. apply IH. destruct Hxy as [u x|urls mw x|w' x].
  - by apply extract_content_within.
  - unfold extract_multiple, extract_multiple_tasks.
    destruct (default MAX_CONCURRENT_REQUESTS mw <=? 0); simpl; [exact H0|].
    by apply collect_within.
  - exact H0.
Qed.

(** X4. The length limit holds for an extractor through its whole life.
    Starting from an extractor with an empty cache (as [__init__] makes
    it), after any sequence of extractions, batch extractions and changes
    of the network, every text [extract_content] returns, fresh or from
    the cache, has at most [MAX_CONTENT_LENGTH + 3] characters: the limit
    and the three dots that mark a cut. *)
Theorem extracted_text_within_limit w0 (s : fetcher W) url text :
  rtc (fetcher_step MAX_CONCURRENT_REQUESTS fetch_page) (Fetcher w0 ∅) s ->
  val (extract_content fetch_page url s) = Ok (Some text) ->
  (length text <= settings.MAX_CONTENT_LENGTH + 3)%nat.
Proof.
  intros Hrtc Hv.
  assert (Hall : map_Forall (fun _ text => within_limit text) (cache s)).
  { eapply fetcher_steps_within; [exact Hrtc|]. apply map_Forall_empty. }
  destruct (extract_content_within url s Hall) as [_ Hret]. by apply Hret.
Qed.

Lemma nonempty_Some (content : option pystr) (text : pystr) :
  nonempty content = Some text -> content = Some text /\ text <> [].
Proof.
  destruct content as [[|c t]|]; simpl; try discriminate.
  intros [= <-]. split; [reflexivity|discriminate].
Qed.

(** The collection loop over [extract_content]: what it adds to the
    mapping is non-empty, is for a URL of the list, and is in the cache
    when the loop ends; it adds at most one entry per URL. *)
Lemma collect_cached urls results (s : fetcher W) :
  (forall u t, results !! u = Some t -> t <> [] /\ cache s !! u = Some t) ->
  let o := collect (extract_content fetch_page) urls results s in
  exists results',
    val o = Ok results' /\
    (size results' <= size results + length urls)%nat /\
    forall u t, results' !! u = Some t ->
      t <> [] /\ cache (post o) !! u = Some t /\
      (u ∈ urls \/ results !! u = Some t).
Proof.
  revert results s. induction urls as [|url urls IH]; intros results s Hinv; simpl.
  { exists results. split; [reflexivity|]. split; [lia|].
    intros u t Hu. destruct (Hinv u t Hu). auto. }
  pose proof (fun t => extract_content_stores url t s) as Hstore.
  pose proof (fun u t => extract_content_keeps url u t s) as Hkeep.
  unfold bind, try_except.
  destruct (extract_content fetch_page url s) as [[c|e] p evs]; simpl in *.
  - destruct (nonempty c) as [t|] eqn:Hn; simpl.
    + apply nonempty_Some in Hn as [-> Hne].
      destruct (IH (<[url:=t]> results) p) as (r' & Hv & Hsize & Hr').
      { intros u t' Hu. destruct (decide (u = url)) as [->|Hneq].
        - rewrite lookup_insert_eq in Hu. injection Hu as <-.
          split; [exact Hne|]. by apply Hstore.
        - rewrite lookup_insert_ne in Hu by done.
          destruct (Hinv u t' Hu). split; [done|]. by apply Hkeep. }
      destruct (collect _ urls _ p) as [v1 p1 evs1]; simpl in *.
      exists r'. split; [exact Hv|]. split.
      { pose proof (map_size_insert url t results) as Hs.
        destruct (results !! url); unfold id in Hs; simpl in *; lia. }
      intros u t' Hu. destruct (Hr' u t' Hu) as (Ht' & Hc & Hin).
      split; [exact Ht'|]. split; [exact Hc|].
      destruct Hin as [Hin|Hin]; [left; by apply list_elem_of_further|].
      destruct (decide (u = url)) as [->|Hneq].
      * left. apply list_elem_of_here.
      * rewrite lookup_insert_ne in Hin by done. by right.
    + destruct (IH results p) as (r' & Hv & Hsize & Hr').
      { intros u t' Hu. destruct (Hinv u t' Hu). split; [done|]. by apply Hkeep. }
      destruct (collect _ urls _ p) as [v1 p1 evs1]; simpl in *.
      exists r'. split; [exact Hv|]. split; [lia|].
      intros u t' Hu. destruct (Hr' u t' Hu) as (Ht' & Hc & Hin).
      split; [exact Ht'|]. split; [exact Hc|].
      destruct Hin as [Hin|Hin]; [left; by apply list_elem_of_further|by right].
  - destruct (IH results p) as (r' & Hv & Hsize & Hr').
    { intros u t' Hu. destruct (Hinv u t' Hu). split; [done|]. by apply Hkeep. }
    destruct (collect _ urls _ p) as [v1 p1 evs1]; simpl in *.
    exists r'. split; [exact Hv|]. split; [lia|].
    intros u t' Hu. destruct (Hr' u t' Hu) as (Ht' & Hc & Hin).
    split; [exact Ht'|]. split; [exact Hc|].
    destruct Hin as [Hin|Hin]; [left; by apply list_elem_of_further|by right].
Qed.

(** What [extract_multiple] returns when the pool has a worker. *)
Lemma extract_multiple_run urls max_workers (s : fetcher W) :
  0 < default MAX_CONCURRENT_REQUESTS max_workers ->
  let o := extract_multiple MAX_CONCURRENT_REQUESTS fetch_page urls max_workers s in
  exists results,
    val o = Ok results /\
    (size results <= length urls)%nat /\
    forall u t, results !! u = Some t ->
      u ∈ urls /\ t <> [] /\ cache (post o) !! u = Some t.
Proof.
  intros Hw. unfold extract_multiple, extract_multiple_tasks.
  destruct (default MAX_CONCURRENT_REQUESTS max_workers <=? 0) eqn:Hle; [lia|].
  destruct (collect_cached urls ∅ s) as (r & Hv & Hsize & Hr).
  { intros u t Hu. by rewrite lookup_empty in Hu. }
  exists r. split; [exact Hv|]. split; [by rewrite map_size_empty in Hsize|].
  intros u t Hu. destruct (Hr u t Hu) as (Ht & Hc & [Hin|Hin]); [auto|].
  by rewrite lookup_empty in Hin.
Qed.

(** What [extract_multiple] has returned, in terms of the URLs given. *)
Lemma extract_multiple_returned urls max_workers (s : fetcher W) results :
  let o := extract_multiple MAX_CONCURRENT_REQUESTS fetch_page urls max_workers s in
  val o = Ok results ->
  (size results <= length urls)%nat /\
  forall u t, results !! u = Some t ->
    u ∈ urls /\ t <> [] /\ cache (post o) !! u = Some t.
Proof.
  intros o Hv.
  destruct (Z.ltb_spec 0 (default MAX_CONCURRENT_REQUESTS max_workers))
    as [Hw|Hw].
  - destruct (extract_multiple_run urls max_workers s Hw) as (r & Hv' & Hsize & Hr).
    fold o in Hv', Hr. rewrite Hv in Hv'. injection Hv' as <-. auto.
  - subst o. unfold extract_multiple, extract_multiple_tasks in Hv.
    destruct (default MAX_CONCURRENT_REQUESTS max_workers <=? 0) eqn:Hle; [|lia].
    discriminate.
Qed.



(** *** Requests and the cache *)










End ContentExtractorFacts.

(** ** Python strings: search and order *)

Section PyStrFacts.
Import PyStr.

Lemma startswith_app (p s : pystr) : startswith p (p ++ s) = true.
Proof.
  induction p as [|a p IH]; simpl; [reflexivity|].
  by rewrite N.eqb_refl, IH.
Qed.





Lemma leb_refl (a : pystr) : leb a a = true.
Proof.
  induction a as [|x a IH]; simpl; [reflexivity|].
  by rewrite N.eqb_refl, IH, orb_true_r.
Qed.

Lemma leb_total (a b : pystr) : leb a b = true \/ leb b a = true.
Proof.
  revert b. induction a as [|x a IH]; intros [|y b]; simpl; auto.
  destruct (N.ltb_spec x y) as [Hlt|Hge]; simpl; [auto|].
  destruct (N.ltb_spec y x) as [Hlt'|Hge']; simpl; [auto|].
  assert (x = y) as -> by lia. rewrite N.eqb_refl. simpl. apply IH.
Qed.

Lemma leb_trans (a b c : pystr) :
  leb a b = true -> leb b c = true -> leb a c = true.
Proof.
  revert b c. induction a as [|x a IH]; intros [|y b] [|z c]; simpl; auto;
    try discriminate.
  intros Hab Hbc.
  apply orb_true_iff in Hab as [Hab|Hab]; apply orb_true_iff in Hbc as [Hbc|Hbc].
  - apply N.ltb_lt in Hab, Hbc.
    assert (H : (x <? z)%N = true) by (apply N.ltb_lt; lia). by rewrite H.
  - apply andb_true_iff in Hbc as [Hyz _]. apply N.eqb_eq in Hyz as <-.
    by rewrite Hab.
  - apply andb_true_iff in Hab as [Hxy _]. apply N.eqb_eq in Hxy as ->.
    by rewrite Hbc.
  - apply andb_true_iff in Hab as [Hxy Hab]. apply andb_true_iff in Hbc as [Hyz Hbc].
    apply N.eqb_eq in Hxy as ->. rewrite Hyz. simpl.
    rewrite (IH _ _ Hab Hbc). apply orb_true_r.
Qed.

Lemma leb_antisym (a b : pystr) :
  leb a b = true -> leb b a = true -> a = b.
Proof.
  revert b. induction a as [|x a IH]; intros [|y b]; simpl; auto;
    try discriminate.
  intros Hab Hba.
  apply orb_true_iff in Hab as [Hab|Hab]; apply orb_true_iff in Hba as [Hba|Hba].
  - apply N.ltb_lt in Hab, Hba. lia.
  - apply andb_true_iff in Hba as [Hyx _]. apply N.eqb_eq in Hyx as ->.
    apply N.ltb_lt in Hab. lia.
  - apply andb_true_iff in Hab as [Hxy _]. apply N.eqb_eq in Hxy as ->.
    apply N.ltb_lt in Hba. lia.
  - apply andb_true_iff in Hab as [Hxy Hab]. apply andb_true_iff in Hba as [_ Hba].
    apply N.eqb_eq in Hxy as ->. f_equal. by apply IH.
Qed.

#[local] Instance le_total : Total le.
Proof. intros a b. apply leb_total. Qed.

#[local] Instance le_trans : Transitive le.
Proof. intros a b c. apply leb_trans. Qed.

(** [sorted] lists the set without repetition, in strictly increasing
    order. *)
Lemma sorted_elem_of (all_sources : gset pystr) (u : pystr) :
  u ∈ sorted all_sources <-> u ∈ all_sources.
Proof.
  unfold sorted. rewrite merge_sort_Permutation. apply elem_of_elements.
Qed.

Lemma sorted_strictly (all_sources : gset pystr) :
  StronglySorted lt (sorted all_sources).
Proof.
  unfold sorted.
  assert (Hnd : NoDup (merge_sort le (elements all_sources))).
  { rewrite merge_sort_Permutation. apply NoDup_elements. }
  pose proof (StronglySorted_merge_sort le (elements all_sources)) as Hs.
  induction Hs as [|x l Hs IH Hall]; [constructor|].
  apply NoDup_cons in Hnd as [Hx Hnd].
  constructor; [by apply IH|].
  apply Forall_forall. intros y Hy. split.
  - eapply Forall_forall in Hall; eauto.
  - intros ->. contradiction.
Qed.

(** *** Trimming and slicing *)

Lemma lstrip_spaces (ws s : pystr) :
  Forall (fun c => isspace c = true) ws -> lstrip (ws ++ s) = lstrip s.
Proof.
  induction 1 as [|c ws Hc _ IH]; simpl; [reflexivity|]. by rewrite Hc.
Qed.

Lemma rstrip_spaces (ws s : pystr) :
  Forall (fun c => isspace c = true) ws -> rstrip (s ++ ws) = rstrip s.
Proof.
  intros Hws. unfold rstrip. rewrite rev_app_distr, lstrip_spaces; [reflexivity|].
  by apply Forall_rev.
Qed.

Lemma rstrip_snoc (s : pystr) (c : N) :
  isspace c = false -> rstrip (s ++ [c]) = s ++ [c].
Proof.
  intros Hc. unfold rstrip. rewrite rev_app_distr. simpl. rewrite Hc.
  simpl. by rewrite rev_involutive.
Qed.

(** [strip] takes the white space off both ends of a text that begins and
    ends with something else. *)
Lemma strip_spaces (ws1 ws2 s : pystr) (c d : N) :
  Forall (fun c => isspace c = true) ws1 ->
  Forall (fun c => isspace c = true) ws2 ->
  isspace c = false -> isspace d = false ->
  strip (ws1 ++ (c :: s ++ [d]) ++ ws2) = c :: s ++ [d].
Proof.
  intros H1 H2 Hc Hd. unfold strip. rewrite lstrip_spaces by done.
  simpl. rewrite Hc.
  change (c :: (s ++ [d]) ++ ws2) with ((c :: s ++ [d]) ++ ws2).
  rewrite rstrip_spaces by done.
  change (c :: s ++ [d]) with ((c :: s) ++ [d]). by apply rstrip_snoc.
Qed.

Lemma endswith_app (p s : pystr) : endswith p (s ++ p) = true.
Proof. unfold endswith. rewrite rev_app_distr. apply startswith_app. Qed.

Lemma slice_drop_last_app (p s : pystr) :
  slice_drop_last (length p) (s ++ p) = s.
Proof.
  unfold slice_drop_last. rewrite length_app.
  replace (length s + length p - length p)%nat with (length s) by lia.
  apply take_app_length.
Qed.

Lemma slice_from_app (p s : pystr) : slice_from (length p) (p ++ s) = s.
Proof. apply drop_app_length. Qed.

Lemma startswith_longer (p q s : pystr) :
  startswith (p ++ q) s = true -> startswith p s = true.
Proof.
  revert s. induction p as [|a p IH]; intros [|b s]; simpl; auto.
  intros H. apply andb_true_iff in H as [-> H]. by apply IH.
Qed.

End PyStrFacts.

(** ** The code fences around the model's answer *)

Section CodeFences.
Import PyStr AIAnalyzer.

Lemma startswith_cons (x y : N) (p s : pystr) :
  startswith (x :: p) (y :: s) = (x =? y)%N && startswith p s.
Proof. reflexivity. Qed.

Lemma close_fence (body : pystr) :
  startswith (lit "```") body = false ->
  (let r := body ++ lit "```" in
   let r := if startswith (lit "```") r then slice_from 3 r else r in
   if endswith (lit "```") r then slice_drop_last 3 r else r) = body.
Proof.
  intros Hb. cbv zeta.
  destruct (startswith (lit "```") (body ++ lit "```")) eqn:Hs.
  - change (lit "```") with [96; 96; 96]%N in Hs, Hb.
    destruct body as [|a [|b [|c t]]]; [reflexivity| | |].
    + destruct (N.eqb_spec 96 a) as [<-|Hne]; [reflexivity|].
      simpl app in Hs. rewrite startswith_cons in Hs.
      apply N.eqb_neq in Hne. rewrite Hne in Hs. discriminate.
    + simpl app in Hs. rewrite !startswith_cons in Hs.
      destruct (N.eqb_spec 96 a) as [<-|Hne]; [|discriminate].
      destruct (N.eqb_spec 96 b) as [<-|Hne]; [reflexivity|discriminate].
    + cbn [startswith app] in Hs, Hb. congruence.
  - rewrite endswith_app. apply (slice_drop_last_app (lit "```")).
Qed.

Lemma no_json_tag (body : pystr) :
  startswith (lit "json") body = false ->
  startswith (lit "json") (body ++ lit "```") = false.
Proof.
  intros Hb.
  change (lit "json") with [106; 115; 111; 110]%N in *.
  change (lit "```") with [96; 96; 96]%N.
  destruct body as [|a [|b [|c [|d t]]]]; simpl app;
    rewrite ?startswith_cons in *;
    change (115 =? 96)%N with false; change (111 =? 96)%N with false;
    change (110 =? 96)%N with false; change (106 =? 96)%N with false;
    rewrite ?andb_false_r; try reflexivity.
  exact Hb.
Qed.

Lemma strip_fenced (ws1 ws2 tag body : pystr) :
  Forall (fun c => isspace c = true) ws1 ->
  Forall (fun c => isspace c = true) ws2 ->
  strip (ws1 ++ ((lit "```" ++ tag) ++ body ++ lit "```") ++ ws2)
  = (lit "```" ++ tag) ++ body ++ lit "```".
Proof.
  intros H1 H2.
  assert (E : (lit "```" ++ tag) ++ body ++ lit "```"
              = 96%N :: (lit "``" ++ tag ++ body ++ lit "``") ++ [96%N]).
  { symmetry. rewrite <- !app_assoc. reflexivity. }
  rewrite E. by apply strip_spaces.
Qed.

(** X6. The code-fence clean-up unwraps a fenced answer.  An answer that
    is, between white space, a text [body] between [```json] and [```]
    comes out as [body], provided [body] does not itself begin with
    [```]; the same answer fenced with a bare [```] comes out as [body]
    provided [body] does not begin with [json]; and an answer that, once
    trimmed, neither begins nor ends with [```] is only trimmed. *)
Theorem strip_fences_unwraps (ws1 ws2 body : pystr) :
  Forall (fun c => isspace c = true) ws1 ->
  Forall (fun c => isspace c = true) ws2 ->
  (startswith (lit "```") body = false ->
   strip_fences (ws1 ++ (lit "```json" ++ body ++ lit "```") ++ ws2) = body) /\
  (startswith (lit "json") body = false ->
   strip_fences (ws1 ++ (lit "```" ++ body ++ lit "```") ++ ws2) = body) /\
  (startswith (lit "```") (strip body) = false ->
   endswith (lit "```") (strip body) = false ->
   strip_fences body = strip body).
Proof.
  intros H1 H2. split; [|split].
  - intros Hb. unfold strip_fences.
    change (lit "```json" ++ body ++ lit "```")
      with ((lit "```" ++ lit "json") ++ body ++ lit "```").
    rewrite (strip_fenced ws1 ws2 (lit "json") body H1 H2).
    change (lit "```" ++ lit "json") with (lit "```json").
    rewrite startswith_app.
    change (slice_from 7 (lit "```json" ++ body ++ lit "```"))
      with (body ++ lit "```").
    by apply close_fence.
  - intros Hj. unfold strip_fences.
    change (lit "```" ++ body ++ lit "```")
      with ((lit "```" ++ []) ++ body ++ lit "```").
    rewrite (strip_fenced ws1 ws2 [] body H1 H2).
    change (lit "```" ++ []) with (lit "```").
    replace (startswith (lit "```json") (lit "```" ++ body ++ lit "```"))
      with false.
    2: { symmetry. apply (no_json_tag body Hj). }
    rewrite startswith_app.
    change (slice_from 3 (lit "```" ++ body ++ lit "```"))
      with (body ++ lit "```").
    rewrite endswith_app. apply (slice_drop_last_app (lit "```")).
  - intros Hs He. unfold strip_fences.
    destruct (startswith (lit "```json") (strip body)) eqn:Hj.
    { apply (startswith_longer (lit "```") (lit "json")) in Hj. congruence. }
    by rewrite Hs, He.
Qed.

End CodeFences.

(** ** The source set *)

Lemma elem_of_add_source (acc : gset pystr) (r : SearchRecord) (u : pystr) :
  u ∈ add_source acc r <-> u ∈ acc \/ (u <> [] /\ url r = u).
Proof.
  unfold add_source. destruct (url r) as [|c t] eqn:E.
  - split; [auto|]. intros [H|[Hne <-]]; [exact H|contradiction].
  - rewrite elem_of_union, elem_of_singleton. split.
    + intros [->|H]; [right; split; [discriminate|reflexivity]|auto].
    + intros [H|[_ <-]]; auto.
Qed.

Lemma elem_of_add_sources (results : list SearchRecord) (acc : gset pystr)
    (u : pystr) :
  u ∈ add_sources acc results
  <-> u ∈ acc \/ (u <> [] /\ exists r, r ∈ results /\ url r = u).
Proof.
  unfold add_sources. revert acc.
  induction results as [|r results IH]; intros acc; simpl.
  - split; [auto|]. intros [H|[_ [r [Hr _]]]]; [exact H|]. by apply elem_of_nil in Hr.
  - rewrite IH, elem_of_add_source. split.
    + intros [[H|[Hne Hu]]|[Hne [r' [Hr' Hu]]]]; [auto| |].
      * right. split; [exact Hne|]. exists r. split; [apply list_elem_of_here|exact Hu].
      * right. split; [exact Hne|]. exists r'. split; [by apply list_elem_of_further|exact Hu].
    + intros [H|[Hne [r' [Hr' Hu]]]]; [auto|].
      apply elem_of_cons in Hr' as [->|Hr'].
      * left. right. auto.
      * right. split; [exact Hne|]. eauto.
Qed.


(** ** The analyzer *)

Section AIAnalyzerFacts.
Import AIAnalyzer.
Context {W prompt : Type}.
Variable call_api : prompt -> W -> res pystr * W.
Variable json_loads : pystr -> option json.
Variable analysis_prompt :
  pystr -> list SearchRecord -> gmap pystr pystr -> prompt.
Variable synthesis_prompt : pystr -> list (list pystr * list json) -> prompt.

#[local] Arguments strip_fences : simpl never.
#[local] Arguments PyStr.strip : simpl never.
#[local] Arguments fallback_analysis : simpl never.
#[local] Arguments ensure_references : simpl never.
#[local] Arguments collect_sources : simpl never.
#[local] Arguments simple_report : simpl never.








Lemma fallback_analysis_readable (response : pystr) :
  readable (fallback_analysis response) = true.
Proof. reflexivity. Qed.







(** *** The follow-up queries *)

Variable follow_up_prompt : pystr -> json -> json -> prompt.

Lemma slice_to_length (k : nat) (v : json) (l : list json) :
  Py.slice_to k v = Ok l -> (length l <= k)%nat.
Proof.
  destruct v; simpl; try discriminate; intros [= <-];
    rewrite ?length_map, length_take; lia.
Qed.

Lemma gaps_as_queries_length analysis (w : W) qs :
  val (gaps_as_queries (W := W) analysis w) = Ok qs -> (length qs <= 3)%nat.
Proof.
  unfold gaps_as_queries, bind, emit, lift_res, ret.
  destruct (Py.get analysis gaps (JArr [])) as [gs|e]; [|discriminate].
  destruct (Py.truthy gs).
  - destruct (Py.slice_to 3 gs) as [l|e] eqn:Hs; [|discriminate].
    cbn [val]. intros [= <-]. by eapply slice_to_length.
  - cbn [val]. intros [= <-]. simpl. lia.
Qed.

(** X14. [generate_follow_up_queries] returns at most three queries.
    For an analysis that is a dict and a model that answers: when the
    answer, freed of its code fences, decodes to a list, the queries are
    its first three items, in order; when it does not decode, the queries
    are the first three gaps of the analysis, and none when it reports no
    gaps.  An analysis that is no dict makes the call raise before the
    model is asked. *)
Theorem follow_up_queries_are_at_most_three initial_query analysis
    round_number (w : W) :
  let o := generate_follow_up_queries call_api json_loads follow_up_prompt
             initial_query analysis round_number w in
  (forall qs, val o = Ok qs -> (length qs <= 3)%nat) /\
  (forall kv response w',
     analysis = JObj kv ->
     call_api (follow_up_prompt initial_query
                 (default (JArr []) (Py.assoc key_findings kv))
                 (default (JArr []) (Py.assoc gaps kv))) w
     = (Ok response, w') ->
     (forall l,
        json_loads (PyStr.strip (strip_fences response)) = Some (JArr l) ->
        val o = Ok (take 3 l)) /\
     (forall gs,
        json_loads (PyStr.strip (strip_fences response)) = None ->
        default (JArr []) (Py.assoc gaps kv) = JArr gs ->
        val o = Ok (take 3 gs))) /\
  ((forall kv, analysis <> JObj kv) ->
   exists e, val o = Raise e /\ post o = w /\ emitted o
     = [(INFO, GeneratingQueries (round_number + 1))]).
Proof.
  intros o. subst o. split; [|split].
  - intros qs.
    unfold generate_follow_up_queries, bind, emit, lift_res, ret, raise.
    destruct (Py.get analysis key_findings (JArr [])) as [kf|e]; [|discriminate].
    destruct (Py.get analysis gaps (JArr [])) as [gs|e]; [|discriminate].
    destruct (call_api (follow_up_prompt initial_query kf gs) w)
      as [[response|e] w'].
    + destruct (json_loads (PyStr.strip (strip_fences response))) as [queries|].
      * destruct (Py.len queries) as [n|e]; [|discriminate].
        destruct (Py.slice_to 3 queries) as [l|e] eqn:Hs; [|discriminate].
        cbn [val]. intros [= <-]. by eapply slice_to_length.
      * pose proof (gaps_as_queries_length analysis w' qs) as Hg.
        destruct (gaps_as_queries analysis w') as [v p evs].
        cbn [val] in *. exact Hg.
    + destruct (is_json_decode_error e); [|discriminate].
      pose proof (gaps_as_queries_length analysis w' qs) as Hg.
      destruct (gaps_as_queries analysis w') as [v p evs].
      cbn [val] in *. exact Hg.
  - intros kv response w' -> Hcall.
    unfold generate_follow_up_queries, gaps_as_queries, bind, emit, lift_res,
      ret, raise.
    cbn [Py.get].
    replace (match Py.assoc key_findings kv with
             | Some x => x | None => JArr [] end)
      with (default (JArr []) (Py.assoc key_findings kv))
      by (by destruct (Py.assoc key_findings kv)).
    replace (match Py.assoc gaps kv with
             | Some x => x | None => JArr [] end)
      with (default (JArr []) (Py.assoc gaps kv))
      by (by destruct (Py.assoc gaps kv)).
    rewrite Hcall. split.
    + intros l ->. reflexivity.
    + intros gs -> ->. by destruct gs.
  - intros Hno.
    unfold generate_follow_up_queries, bind, emit, lift_res, ret, raise.
    destruct analysis as [| | | | | |kv]; try (by destruct (Hno kv));
      eexists; (split; [reflexivity|split; reflexivity]).
Qed.

(** X18. What a failing model call does to the two methods that read
    JSON.  [analyze_search_results] lets the exception through, except
    for a [JSONDecodeError]: its handler reads [response], which the
    failed call never assigned, so that an [UnboundLocalError] is raised
    in its place.  [generate_follow_up_queries] lets the exception through
    as well, except for a [JSONDecodeError], which it answers like an
    answer that is no JSON: with the gaps of the analysis. *)
Theorem failed_model_call_in_json_readers (e : exn) (w : W) :
  (forall query results extracted_contents w',
     call_api (analysis_prompt query results extracted_contents) w
     = (Raise e, w') ->
     let o := analyze_search_results call_api json_loads analysis_prompt
                query results extracted_contents w in
     post o = w' /\
     (is_json_decode_error e = false -> val o = Raise e) /\
     (is_json_decode_error e = true ->
      exists msg, val o = Raise (Exn UnboundLocalError msg))) /\
  (forall initial_query kv round_number w',
     call_api (follow_up_prompt initial_query
                 (default (JArr []) (Py.assoc key_findings kv))
                 (default (JArr []) (Py.assoc gaps kv))) w
     = (Raise e, w') ->
     let o := generate_follow_up_queries call_api json_loads follow_up_prompt
                initial_query (JObj kv) round_number w in
     (is_json_decode_error e = false -> val o = Raise e /\ post o = w') /\
     (is_json_decode_error e = true ->
      forall gs, default (JArr []) (Py.assoc gaps kv) = JArr gs ->
                 val o = Ok (take 3 gs) /\ post o = w')).
Proof.
  split.
  - intros query results extracted_contents w' Hcall.
    unfold analyze_search_results, bind, emit, raise.
    rewrite !Hcall. destruct (is_json_decode_error e); cbn [val post].
    + split; [reflexivity|]. split; [discriminate|]. eauto.
    + split; [reflexivity|]. split; [reflexivity|discriminate].
  - intros initial_query kv round_number w' Hcall.
    unfold generate_follow_up_queries, gaps_as_queries, bind, emit, lift_res,
      ret, raise.
    cbn [Py.get].
    replace (match Py.assoc key_findings kv with
             | Some x => x | None => JArr [] end)
      with (default (JArr []) (Py.assoc key_findings kv))
      by (by destruct (Py.assoc key_findings kv)).
    replace (match Py.assoc gaps kv with
             | Some x => x | None => JArr [] end)
      with (default (JArr []) (Py.assoc gaps kv))
      by (by destruct (Py.assoc gaps kv)).
    rewrite !Hcall. destruct (is_json_decode_error e).
    + split; [discriminate|]. intros _ gs ->. by destruct gs.
    + split; [auto|discriminate].
Qed.

End AIAnalyzerFacts.

(** ** The orchestrator *)

Lemma banners_app (l1 l2 : list event) :
  banners (l1 ++ l2) = banners l1 ++ banners l2.
Proof.
  induction l1 as [|e l1 IH]; [reflexivity|].
  destruct e as [[] []| | | |? ? ? []]; simpl; rewrite ?IH; reflexivity.
Qed.

Lemma raised_in_app (l1 l2 : list event) :
  raised_in (l1 ++ l2) = raised_in l1 ++ raised_in l2.
Proof.
  induction l1 as [|e l1 IH]; [reflexivity|].
  destruct e as [[] []| | | |? ? ? []]; simpl; rewrite ?IH; reflexivity.
Qed.

Lemma gen_failures_app (l1 l2 : list event) :
  gen_failures (l1 ++ l2) = gen_failures l1 ++ gen_failures l2.
Proof.
  induction l1 as [|e l1 IH]; [reflexivity|].
  destruct e as [[] []| | | |? ? ? []]; simpl; rewrite ?IH; reflexivity.
Qed.

Section OrchestratorFacts.
Import Orchestrator.
Context {W : Type}.
Variable MAX_RESEARCH_ROUNDS RESULTS_PER_SEARCH : Z.
Variable search : pystr -> Z -> W -> res (list SearchRecord) * W.
Variable extract_multiple : list pystr -> W -> res (gmap pystr pystr) * W.
Variable analyze_search_results :
  pystr -> list SearchRecord -> gmap pystr pystr -> W -> res json * W.
Variable generate_follow_up_queries :
  pystr -> json -> Z -> W -> res (list pystr) * W.
Variable synthesize_research : pystr -> list round_data -> W -> res pystr * W.
Variable now : W -> Z.

Lemma notify_run (cb : callback) m c t (s : W) v s' evs :
  notify cb m c t s = Out v s' evs ->
  banners evs = [] /\ gen_failures evs = [] /\
  ((v = Ok tt /\ raised_in evs = []) \/
   (exists e, v = Raise e /\ evs = [Progress m c t (Some e)])).
Proof.
  unfold notify. destruct cb as [f|].
  - destruct (f m c t s) as [[[]|e] s1]; intros [= <- <- <-]; eauto 6.
  - intros [= <- <- <-]. auto.
Qed.

Lemma callback_status_ok {A} (a : A) evs :
  callback_status (Ok a) evs -> raised_in evs = [].
Proof. intros [H|(pre & m & c & t & e & _ & _ & H)]; [exact H|discriminate]. Qed.

Lemma callback_status_prefix {A} (v : res A) pre evs :
  raised_in pre = [] -> callback_status v evs -> callback_status v (pre ++ evs).
Proof.
  intros Hpre [H|(pre' & m & c & t & e & -> & Hp & Hv)].
  - left. by rewrite raised_in_app, Hpre, H.
  - right. exists (pre ++ pre'), m, c, t, e. rewrite app_assoc.
    split; [reflexivity|]. split; [|exact Hv].
    by rewrite raised_in_app, Hpre, Hp.
Qed.

Lemma callback_status_raise {A B} e evs :
  callback_status (@Raise A e) evs -> callback_status (@Raise B e) evs.
Proof.
  intros [H|(pre & m & c & t & e' & Hevs & Hp & Hv)]; [by left|].
  right. exists pre, m, c, t, e'. injection Hv as ->. auto.
Qed.

(** A raise of the callback is never caught: it ends the run. *)
Lemma callback_status_escapes {A} (v : res A) evs m c t e :
  callback_status v evs ->
  Progress m c t (Some e) ∈ evs ->
  v = Raise e /\ last evs = Some (Progress m c t (Some e)).
Proof.
  assert (Hno : forall l, raised_in l = [] -> Progress m c t (Some e) ∈ l -> False).
  { intros l Hl Hin. apply list_elem_of_split in Hin as (l1 & l2 & ->).
    rewrite raised_in_app in Hl. simpl in Hl.
    by apply app_eq_nil in Hl as [_ Hl]. }
  intros [H|(pre & m' & c' & t' & e' & -> & Hp & ->)] Hin.
  - destruct (Hno _ H Hin).
  - apply elem_of_app in Hin as [Hin|Hin]; [destruct (Hno _ Hp Hin)|].
    apply list_elem_of_singleton in Hin. injection Hin as -> -> -> ->.
    split; [reflexivity|]. apply last_snoc.
Qed.

Lemma search_queries_run cb rn max rps qs acc srcs (s : W) v s' evs :
  search_queries search cb rn max rps qs acc srcs s = Out v s' evs ->
  banners evs = [] /\ gen_failures evs = [] /\
  callback_status v evs /\
  (forall found, v = Ok found ->
     exists new, found = (acc ++ new, add_sources srcs new)).
Proof.
  revert acc srcs s v s' evs.
  induction qs as [|q qs IH]; intros acc srcs s v s' evs; simpl.
  { intros [= <- <- <-]. repeat split; [by left|].
    intros found [= <-]. exists []. by rewrite app_nil_r. }
  unfold bind, external.
  destruct (notify cb _ _ _ s) as [vn sn en] eqn:Hn.
  apply notify_run in Hn as (Hb & Hg & [(-> & Hr)|(e & -> & ->)]).
  - destruct (search q rps sn) as [[results|e] s1].
    + destruct (search_queries _ _ _ _ _ qs _ _ s1) as [v2 s2 e2] eqn:Hq.
      apply IH in Hq as (Hb2 & Hg2 & Hcb & Hok). intros [= <- <- <-].
      rewrite banners_app, gen_failures_app, Hb, Hg, Hb2, Hg2.
      repeat split; [by apply callback_status_prefix|].
      intros found Hf. destruct (Hok found Hf) as [new ->].
      exists (results ++ new). unfold add_sources.
      by rewrite app_assoc, foldl_app.
    + intros [= <- <- <-]. rewrite app_nil_r.
      repeat split; [exact Hb|exact Hg|by left|discriminate].
  - intros [= <- <- <-]. repeat split; [|discriminate].
    right. exists [], (MsgSearchQuery (rn + 1) max q), (rn + 1), max, e. auto.
Qed.

Lemma callback_status_cons {A} (v : res A) x evs :
  raised_in [x] = [] -> callback_status v evs -> callback_status v (x :: evs).
Proof. intros Hx. by apply (callback_status_prefix v [x]). Qed.

Lemma callback_status_here {A} m c t e :
  callback_status (@Raise A e) [Progress m c t (Some e)].
Proof. right. exists [], m, c, t, e. auto. Qed.

Lemma callback_status_nil {A} (v : res A) : callback_status v [].
Proof. by left. Qed.

Lemma leb_shift (max rn : Z) : (max <=? rn + 1) = (max - 1 <=? rn).
Proof. destruct (Z.leb_spec max (rn + 1)), (Z.leb_spec (max - 1) rn); lia. Qed.

#[local] Arguments search_queries : simpl never.

Ltac crunch H :=
  repeat (simpl in H;
    match type of H with
    | context [notify ?cb ?m ?c ?t ?s] =>
        let Hn := fresh "Hn" in
        destruct (notify cb m c t s) as [? ? ?] eqn:Hn;
        apply notify_run in Hn as (? & ? & [(-> & ?)|(? & -> & ->)])
    | context [search_queries ?a ?b ?c ?d ?e ?f ?g ?h ?st] =>
        let Hq := fresh "Hq" in
        destruct (search_queries a b c d e f g h st) as [? ? ?] eqn:Hq;
        apply search_queries_run in Hq as (? & ? & ? & ?)
    | context [generate_follow_up_queries ?a ?b ?c ?st] =>
        destruct (generate_follow_up_queries a b c st) as [[?|?] ?] eqn:?
    | context [extract_multiple ?a ?st] =>
        destruct (extract_multiple a st) as [[?|?] ?] eqn:?
    | context [analyze_search_results ?a ?b ?c ?st] =>
        destruct (analyze_search_results a b c st) as [[?|?] ?] eqn:?
    | context [synthesize_research ?a ?b ?st] =>
        destruct (synthesize_research a b st) as [[?|?] ?] eqn:?
    | context [Z.eqb ?a ?b] => destruct (Z.eqb a b) eqn:?
    | context [Z.leb ?a ?b] => destruct (Z.leb a b) eqn:?
    | context [last ?l] => destruct (last l) eqn:?
    | context [Py.get ?a ?b ?c] => destruct (Py.get a b c) eqn:?
    | context [Py.truthy ?a] => destruct (Py.truthy a) eqn:?
    | context [match ?x with _ => _ end] => is_var x; destruct x
    end).

(** Rewriting the three event projections along an event list. *)
Ltac ev_norm :=
  repeat (simpl; rewrite ?banners_app, ?gen_failures_app, ?raised_in_app);
  repeat match goal with
         | Hx : banners ?l = [] |- context [banners ?l] => rewrite Hx
         | Hx : gen_failures ?l = [] |- context [gen_failures ?l] => rewrite Hx
         | Hx : raised_in ?l = [] |- context [raised_in ?l] => rewrite Hx
         end;
  simpl.

Ltac solve_status :=
  repeat first
    [ apply callback_status_cons; [reflexivity|]
    | apply callback_status_prefix;
      [first [assumption | eapply callback_status_ok; eassumption]|] ];
  first [ apply callback_status_nil
        | apply callback_status_here
        | assumption
        | eapply callback_status_raise; eassumption ].

(** One pass through the loop body announces its round, is faithful to
    the callback, and ends in one of three ways: it raises; it finds no
    query for a round after the first and breaks with nothing changed; or
    it appends the completed round, and continues exactly when the round
    does not meet the stop test. *)
Lemma round_body_run topic max rps cb rn rounds srcs (s : W) v s' evs :
  round_body search extract_multiple analyze_search_results
    generate_follow_up_queries topic max rps cb rn rounds srcs s
  = Out v s' evs ->
  banners evs = [rn + 1] /\
  callback_status v evs /\
  ((exists e, v = Raise e /\ gen_failures evs = []) \/
   (v = Ok (Break, (rounds, srcs)) /\ rn <> 0 /\
    (gen_failures evs = [] \/
     exists pre e,
       evs = pre ++ [Log ERROR (QueryGenFailed e); Log INFO NoMoreQueries] /\
       gen_failures pre = [] /\ banners pre = [rn + 1])) \/
   (exists rd ctl,
      v = Ok (ctl, (rounds ++ [rd], add_sources srcs (search_results rd))) /\
      round_number rd = rn + 1 /\
      gen_failures evs = [] /\
      stops max rd = match ctl with Break => true | Continue => false end)).
Proof.
  unfold round_body, _generate_queries, bind, try_except, emit, external,
    lift_res, ret, raise.
  intros H. crunch H.
  all: injection H as <- <- <-.
  all: split; [ev_norm; reflexivity|].
  all: split; [solve_status|].
  all: try (left; eexists; split; [reflexivity|ev_norm; reflexivity]).
  all: try (right; left; split; [reflexivity|]; split; [by apply Z.eqb_neq|];
            first [ left; ev_norm; reflexivity
                  | right; eexists (_ :: _), _; split; [reflexivity|];
                    split; ev_norm; reflexivity ]).
  all: right; right.
  all: match goal with
       | Hf : forall found, Ok ?a = Ok found -> _ |- _ =>
           destruct (Hf a eq_refl) as [new ->]
       end.
  all: simpl;
       eexists {| round_number := _; queries := _; search_results := _;
                  extracted_contents := _; analysis := _ |}, _;
       split; [reflexivity|]; split; [reflexivity|].
  all: split; [ev_norm; reflexivity|].
  all: unfold stops, no_gaps; simpl; rewrite leb_shift.
  all: repeat match goal with
              | Hx : (_ <=? _) = _ |- _ => rewrite Hx; clear Hx
              | Hx : Py.get _ _ _ = _ |- _ => rewrite Hx; clear Hx
              | Hx : Py.truthy _ = _ |- _ => rewrite Hx; clear Hx
              end.
  all: reflexivity.
Qed.

(** The loop, started at round index [a] with [n] indices to go, where
    [a + n] is [max_rounds].  It runs [j <= n] passes and announces the
    rounds [a+1 .. a+j].  When it returns, it has appended the rounds
    [new], numbered [a+1 ..], and collected their sources. *)
Lemma research_loop_run topic max rps cb (n a : nat) rounds srcs (s : W)
    v s' evs :
  research_loop search extract_multiple analyze_search_results
    generate_follow_up_queries topic max rps cb
    (map Z.of_nat (seq a n)) rounds srcs s
  = Out v s' evs ->
  (a + n)%nat = Z.to_nat max ->
  exists j, (j <= n)%nat /\ (n <> 0 -> j <> 0)%nat /\
    banners evs = numbers a j /\
    callback_status v evs /\
    ((exists e, v = Raise e /\ gen_failures evs = []) \/
     (exists new,
        v = Ok (rounds ++ new, foldl add_sources srcs (map search_results new)) /\
        map round_number new = numbers a (length new) /\
        (length new <= j)%nat /\
        (a = 0 -> n <> 0 -> new <> [])%nat /\
        (forall i rd, new !! i = Some rd ->
                      (stops max rd = false <-> (i + 1 < j)%nat)) /\
        (gen_failures evs = [] \/
         exists pre e,
           evs = pre ++ [Log ERROR (QueryGenFailed e); Log INFO NoMoreQueries] /\
           gen_failures pre = [] /\ banners pre = numbers a j /\
           j = (length new + 1)%nat /\ (a + length new <> 0)%nat))).
Proof.
  revert a rounds srcs s v s' evs.
  induction n as [|n IH]; intros a rounds srcs s v s' evs H Hmax.
  { simpl in H. injection H as <- <- <-. exists 0%nat.
    split; [lia|]. split; [tauto|]. split; [reflexivity|].
    split; [by left|]. right. exists []. rewrite app_nil_r.
    split; [reflexivity|]. split; [reflexivity|]. split; [simpl; lia|].
    split; [tauto|]. split; [|by left].
    intros i rd Hi. by rewrite lookup_nil in Hi. }
  simpl in H. unfold bind in H.
  destruct (round_body _ _ _ _ _ _ _ _ _ _ _ s) as [v1 s1 evs1] eqn:Hb.
  apply round_body_run in Hb
    as (Hban & Hst & [(e & -> & Hg)|[(-> & Hrn & Hgen)|(rd & ctl & -> & Hnum & Hg & Hstop)]]).
  - (* the pass raised *)
    injection H as <- <- <-. exists 1%nat.
    split; [lia|]. split; [lia|]. split; [exact Hban|].
    split; [by eapply callback_status_raise|]. left. eauto.
  - (* no query: the loop ends with the rounds it had *)
    simpl in H. injection H as <- <- <-. rewrite app_nil_r. exists 1%nat.
    split; [lia|]. split; [lia|]. split; [exact Hban|].
    split; [left; by eapply callback_status_ok|].
    right. exists []. rewrite app_nil_r.
    split; [reflexivity|]. split; [reflexivity|]. split; [simpl; lia|].
    split; [intros ->; contradiction|].
    split; [intros i rd' Hi; by rewrite lookup_nil in Hi|].
    destruct Hgen as [Hg|(pre & e & -> & Hg & Hb)]; [by left|].
    right. exists pre, e. repeat split; [exact Hg|exact Hb|simpl; lia].
  - destruct ctl.
    + (* the round is the last one *)
      simpl in H. injection H as <- <- <-. rewrite app_nil_r. exists 1%nat.
      split; [lia|]. split; [lia|]. split; [exact Hban|].
      split; [left; by eapply callback_status_ok|].
      right. exists [rd].
      split; [reflexivity|]. split; [simpl; by rewrite Hnum|].
      split; [simpl; lia|]. split; [discriminate|]. split; [|by left].
      intros [|i] rd' Hi; simpl in Hi; [|by rewrite lookup_nil in Hi].
      injection Hi as <-. rewrite Hstop. split; [discriminate|lia].
    + (* on to the next round *)
      destruct (research_loop _ _ _ _ _ _ _ _ _ _ _ s1) as [v2 s2 evs2] eqn:Hl.
      injection H as <- <- <-.
      assert (Hn : n <> 0%nat).
      { unfold stops in Hstop. apply orb_false_iff in Hstop as [Hle _].
        apply Z.leb_gt in Hle. lia. }
      apply IH in Hl as (j & Hj & Hj0 & Hban2 & Hst2 & Hout); [|lia].
      exists (S j). split; [lia|]. split; [lia|].
      split; [rewrite banners_app, Hban, Hban2; reflexivity|].
      split; [apply callback_status_prefix; [by eapply callback_status_ok|exact Hst2]|].
      destruct Hout as [(e & -> & Hg2)|(new & -> & Hnums & Hlen & _ & Hstops & Hgen)].
      * left. exists e. split; [reflexivity|]. by rewrite gen_failures_app, Hg, Hg2.
      * right. exists (rd :: new). rewrite <- app_assoc.
        split; [reflexivity|]. split; [simpl; by rewrite Hnum, Hnums|].
        split; [simpl; lia|]. split; [discriminate|]. split.
        { intros [|i] rd' Hi; simpl in Hi.
          - injection Hi as <-. rewrite Hstop. split; [lia|reflexivity].
          - rewrite (Hstops i rd' Hi). lia. }
        destruct Hgen as [Hg2|(pre & e & -> & Hg2 & Hb2 & -> & Ha)].
        { left. by rewrite gen_failures_app, Hg, Hg2. }
        right. exists (evs1 ++ pre), e. rewrite app_assoc.
        split; [reflexivity|].
        split; [by rewrite gen_failures_app, Hg, Hg2|].
        split; [rewrite banners_app, Hban, Hb2; reflexivity|].
        split; simpl; lia.
Qed.

(** What follows the loop neither announces a round nor generates
    queries; when it returns, the result holds the rounds and sources it
    was given and the report the synthesis made of these rounds. *)
Lemma finish_run topic max cb rounds srcs (s : W) v s' evs :
  finish synthesize_research now topic max cb rounds srcs s = Out v s' evs ->
  banners evs = [] /\ gen_failures evs = [] /\
  callback_status v evs /\
  (forall r, v = Ok r ->
     Orchestrator.rounds r = rounds /\
     all_sources r = sorted srcs /\
     total_rounds r = length rounds /\
     exists w w', synthesize_research topic (map to_round_data rounds) w
                  = (Ok (final_report r), w')).
Proof.
  unfold finish, bind, emit, external, ret.
  intros H. crunch H.
  all: injection H as <- <- <-.
  all: split; [ev_norm; reflexivity|].
  all: split; [ev_norm; reflexivity|].
  all: split; [solve_status|].
  all: try (intros r; discriminate).
  all: intros r [= <-]; simpl; eauto 10.
Qed.


Lemma elem_of_banners n evs :
  Log INFO (RoundBanner n) ∈ evs <-> n ∈ banners evs.
Proof.
  induction evs as [|x evs IH]; simpl.
  { by rewrite !elem_of_nil. }
  rewrite elem_of_cons, IH.
  destruct x as [[] []| | | |]; simpl; rewrite ?elem_of_cons;
    (split;
     [ intros [H|H];
       [ first [discriminate | injection H as ->; by left]
       | first [assumption | by right] ]
     | first [ intros [->|H]; [by left|by right] | intros H; by right ] ]).
Qed.

Lemma elem_of_numbers (z : Z) (a k : nat) :
  z ∈ numbers a k <-> Z.of_nat a + 1 <= z <= Z.of_nat a + Z.of_nat k.
Proof.
  unfold numbers. rewrite list_elem_of_fmap. split.
  - intros (i & -> & Hi). apply elem_of_seq in Hi. lia.
  - intros H. exists (Z.to_nat (z - 1)). split; [lia|].
    apply elem_of_seq. lia.
Qed.

(** The whole run: the loop from round index 0, then [finish]. *)
Lemma conduct_research_run topic max_rounds rps cb (s : W) v s' evs :
  let max := default MAX_RESEARCH_ROUNDS max_rounds in
  conduct_research MAX_RESEARCH_ROUNDS RESULTS_PER_SEARCH search
    extract_multiple analyze_search_results
    generate_follow_up_queries synthesize_research now
    topic max_rounds rps cb s = Out v s' evs ->
  exists j, (j <= Z.to_nat max)%nat /\
    banners evs = numbers 0 j /\
    callback_status v evs /\
    ((exists e, v = Raise e /\ gen_failures evs = []) \/
     (exists new w1 evl,
        let srcs := foldl add_sources ∅ (map search_results new) in
        let fin := finish synthesize_research now topic max cb new srcs w1 in
        evs = Log INFO (ResearchStarted topic max) :: evl ++ emitted fin /\
        v = val fin /\ s' = post fin /\
        map round_number new = numbers 0 (length new) /\
        (length new <= j)%nat /\
        (1 <= max -> new <> []) /\
        (forall i rd, new !! i = Some rd ->
                      (stops max rd = false <-> (i + 1 < j)%nat)) /\
        (gen_failures evl = [] \/
         exists pre e,
           evl = pre ++ [Log ERROR (QueryGenFailed e); Log INFO NoMoreQueries] /\
           gen_failures pre = [] /\ banners pre = numbers 0 j /\
           j = (length new + 1)%nat /\ new <> []))).
Proof.
  intros max. unfold conduct_research. fold max.
  unfold bind at 1, emit at 1. unfold bind at 1. unfold range.
  destruct (research_loop _ _ _ _ _ _ _ _ _ _ _ s) as [v1 s1 evl] eqn:Hl.
  apply research_loop_run in Hl as (j & Hj & _ & Hban & Hst & Hout); [|lia].
  destruct Hout as [(e & -> & Hg)|(new & -> & Hnums & Hlen & Hne & Hstops & Hgen)].
  { intros [= <- <- <-]. exists j. split; [exact Hj|]. split; [exact Hban|].
    split; [apply callback_status_cons; [reflexivity|by eapply callback_status_raise]|].
    left. eauto. }
  rewrite app_nil_l. cbn [fst snd].
  destruct (finish _ _ _ _ _ _ _ s1) as [v2 s2 evf] eqn:Hf.
  pose proof Hf as Hf'. apply finish_run in Hf' as (Hbf & Hgf & Hstf & _).
  intros [= <- <- <-]. exists j. split; [exact Hj|].
  split; [simpl; by rewrite banners_app, Hban, Hbf, app_nil_r|].
  split.
  { apply callback_status_cons; [reflexivity|].
    apply callback_status_prefix; [by eapply callback_status_ok|exact Hstf]. }
  right. exists new, s1, evl. cbn zeta. rewrite Hf. cbn [val post emitted].
  split; [reflexivity|]. split; [reflexivity|]. split; [reflexivity|].
  split; [exact Hnums|]. split; [exact Hlen|].
  split; [intros Hmax; apply Hne; [reflexivity|lia]|].
  split; [exact Hstops|].
  destruct Hgen as [Hg|(pre & e & -> & Hg & Hb & -> & Ha)]; [by left|].
  right. exists pre, e. repeat split; try assumption.
  intros ->. simpl in Ha. lia.
Qed.

Lemma numbers_from_one (k : nat) : numbers 0 k = map Z.of_nat (seq 1 k).
Proof.
  unfold numbers. rewrite <- (fmap_S_seq 0 k), <- list_fmap_compose.
  apply list_fmap_ext. intros _ i _. simpl. lia.
Qed.

Lemma elem_of_round_sources (new : list ResearchRound) (acc : gset pystr) u :
  u ∈ foldl add_sources acc (map search_results new)
  <-> u ∈ acc \/
      (u <> [] /\ exists rd r, rd ∈ new /\ r ∈ search_results rd /\ url r = u).
Proof.
  revert acc. induction new as [|rd new IH]; intros acc; simpl.
  - split; [auto|]. intros [H|(_ & rd & r & Hrd & _)]; [exact H|].
    by apply elem_of_nil in Hrd.
  - rewrite IH, elem_of_add_sources. split.
    + intros [[H|(Hne & r & Hr & Hu)]|(Hne & rd' & r & Hrd' & Hr & Hu)]; [auto| |].
      * right. split; [exact Hne|]. exists rd, r.
        split; [apply list_elem_of_here|auto].
      * right. split; [exact Hne|]. exists rd', r.
        split; [by apply list_elem_of_further|auto].
    + intros [H|(Hne & rd' & r & Hrd' & Hr & Hu)]; [auto|].
      apply elem_of_cons in Hrd' as [->|Hrd'].
      * left. right. eauto.
      * right. split; [exact Hne|]. eauto.
Qed.

(** C3, as the code has it.  The callback is called unguarded: when it
    raises at a checkpoint, whichever it is, the exception leaves
    [conduct_research], and the raising call is the last thing the run
    did. *)
Theorem callback_failure_aborts topic max_rounds rps cb (s : W) m c t e :
  let o := conduct_research MAX_RESEARCH_ROUNDS RESULTS_PER_SEARCH search
             extract_multiple analyze_search_results
             generate_follow_up_queries synthesize_research now
             topic max_rounds rps cb s in
  Progress m c t (Some e) ∈ emitted o ->
  val o = Raise e /\ last (emitted o) = Some (Progress m c t (Some e)).
Proof.
  intros o Hin. subst o.
  destruct (conduct_research _ _ _ _ _ _ _ _ _ _ _ _ s) as [v s' evs] eqn:H.
  apply conduct_research_run in H as (j & _ & _ & Hst & _).
  cbn [val emitted] in *. by eapply callback_status_escapes.
Qed.

(** C4.  With [max_rounds >= 1] the loop makes at most [max_rounds]
    passes (each pass announces its round first thing), and the rounds of
    a returned result are numbered [1..k] for some [1 <= k <= max_rounds],
    with [total_rounds = len(rounds) = k]. *)
Theorem rounds_numbered_to_max topic max_rounds rps cb (s : W) :
  let max := default MAX_RESEARCH_ROUNDS max_rounds in
  1 <= max ->
  let o := conduct_research MAX_RESEARCH_ROUNDS RESULTS_PER_SEARCH search
             extract_multiple analyze_search_results
             generate_follow_up_queries synthesize_research now
             topic max_rounds rps cb s in
  Z.of_nat (length (banners (emitted o))) <= max /\
  forall r, val o = Ok r ->
    exists k : nat,
      1 <= Z.of_nat k <= max /\
      map round_number (Orchestrator.rounds r) = map Z.of_nat (seq 1 k) /\
      length (Orchestrator.rounds r) = k /\
      total_rounds r = k.
Proof.
  intros max Hmax o. subst o.
  destruct (conduct_research _ _ _ _ _ _ _ _ _ _ _ _ s) as [v s' evs] eqn:H.
  apply conduct_research_run in H as (j & Hj & Hban & _ & Hout).
  fold max in Hj, Hout. cbn [val emitted].
  split.
  { rewrite Hban. unfold numbers. rewrite length_map, length_seq. lia. }
  intros r ->.
  destruct Hout as [(e & [=] & _)|(new & w1 & evl & _ & Hv & _ & Hnums & Hlen & Hne & _)].
  destruct (finish _ _ _ _ _ _ _ w1) as [v2 s2 evf] eqn:Hf.
  apply finish_run in Hf as (_ & _ & _ & Hr). cbn [val] in Hv.
  destruct (Hr r (eq_sym Hv)) as (-> & _ & -> & _).
  exists (length new). split.
  { specialize (Hne Hmax). destruct new; [contradiction|]. simpl in *. lia. }
  split; [by rewrite Hnums, numbers_from_one|]. split; reflexivity.
Qed.

(** C5, as the code has it.  [all_sources] of a returned result lists,
    without repetition and in increasing order, the non-empty [url]s of
    the search results of all its rounds. *)
Theorem all_sources_sorted_union topic max_rounds rps cb (s : W) r :
  val (conduct_research MAX_RESEARCH_ROUNDS RESULTS_PER_SEARCH search
         extract_multiple analyze_search_results
         generate_follow_up_queries synthesize_research now
         topic max_rounds rps cb s) = Ok r ->
  StronglySorted PyStr.lt (all_sources r) /\
  forall u, u ∈ all_sources r <->
    u <> [] /\
    exists rd rec, rd ∈ Orchestrator.rounds r /\ rec ∈ search_results rd /\
                   url rec = u.
Proof.
  destruct (conduct_research _ _ _ _ _ _ _ _ _ _ _ _ s) as [v s' evs] eqn:H.
  apply conduct_research_run in H as (j & _ & _ & _ & Hout).
  cbn [val]. intros ->.
  destruct Hout as [(e & [=] & _)|(new & w1 & evl & _ & Hv & _)].
  destruct (finish _ _ _ _ _ _ _ w1) as [v2 s2 evf] eqn:Hf.
  apply finish_run in Hf as (_ & _ & _ & Hr). cbn [val] in Hv.
  destruct (Hr r (eq_sym Hv)) as (-> & -> & _).
  split; [apply sorted_strictly|].
  intros u. rewrite sorted_elem_of, elem_of_round_sources.
  split; [intros [H|H]; [by apply elem_of_empty in H|exact H]|auto].
Qed.

(** C6.  In a run that returns, a completed round is followed by another
    pass through the loop exactly when it does not meet the stop test
    (round number at [max_rounds], or no gaps reported); a round that meets
    the test is the last one.  In particular, when round 1 reports
    [gaps = []], the result has [total_rounds = 1], whatever [max_rounds]
    is. *)
Theorem continue_decision topic max_rounds rps cb (s : W) r :
  let max := default MAX_RESEARCH_ROUNDS max_rounds in
  let o := conduct_research MAX_RESEARCH_ROUNDS RESULTS_PER_SEARCH search
             extract_multiple analyze_search_results
             generate_follow_up_queries synthesize_research now
             topic max_rounds rps cb s in
  val o = Ok r ->
  (forall rd, rd ∈ Orchestrator.rounds r ->
     (Log INFO (RoundBanner (round_number rd + 1)) ∈ emitted o
      <-> stops max rd = false) /\
     (stops max rd = true -> last (Orchestrator.rounds r) = Some rd)) /\
  (forall rd, Orchestrator.rounds r !! 0%nat = Some rd ->
     Py.get (analysis rd) AIAnalyzer.gaps (JArr []) = Ok (JArr []) ->
     total_rounds r = 1%nat).
Proof.
  intros max o. subst o.
  destruct (conduct_research _ _ _ _ _ _ _ _ _ _ _ _ s) as [v s' evs] eqn:H.
  apply conduct_research_run in H as (j & Hj & Hban & _ & Hout).
  fold max in Hj, Hout. cbn [val emitted]. intros ->.
  destruct Hout as [(e & [=] & _)|(new & w1 & evl & _ & Hv & _ & Hnums & Hlen & _ & Hstops & _)].
  destruct (finish _ _ _ _ _ _ _ w1) as [v2 s2 evf] eqn:Hf.
  apply finish_run in Hf as (_ & _ & _ & Hr). cbn [val] in Hv.
  destruct (Hr r (eq_sym Hv)) as (-> & _ & -> & _).
  assert (Hnum : forall i rd, new !! i = Some rd -> round_number rd = Z.of_nat i + 1).
  { intros i rd Hi.
    assert (Hm : map round_number new !! i = Some (round_number rd))
      by (by rewrite list_lookup_fmap, Hi).
    rewrite Hnums in Hm. unfold numbers in Hm.
    rewrite list_lookup_fmap in Hm.
    destruct (seq 0 (length new) !! i) as [k|] eqn:Hk; [|discriminate].
    apply lookup_seq in Hk as [-> _]. simpl in Hm. by injection Hm as ->. }
  split.
  - intros rd Hrd. apply list_elem_of_lookup in Hrd as [i Hi].
    pose proof (Hnum i rd Hi) as Hn. pose proof (Hstops i rd Hi) as Hs.
    pose proof (lookup_lt_Some _ _ _ Hi) as Hlt.
    split.
    + rewrite elem_of_banners, Hban, elem_of_numbers, Hs. lia.
    + intros Htrue. rewrite last_lookup.
      replace (pred (length new)) with i; [exact Hi|].
      destruct (decide (i + 1 < j)%nat) as [Hij|Hij]; [|lia].
      apply Hs in Hij. congruence.
  - intros rd H0 Hgaps.
    pose proof (Hstops 0%nat rd H0) as Hs.
    pose proof (lookup_lt_Some _ _ _ H0) as Hlt.
    assert (Htrue : stops max rd = true).
    { unfold stops, no_gaps. rewrite Hgaps. apply orb_true_r. }
    destruct (decide (0 + 1 < j)%nat) as [Hij|Hij]; [|lia].
    apply Hs in Hij. congruence.
Qed.


(** *** The research returns when nothing around it raises *)

Section Returns.
Variable cb : callback (W := W).
Hypothesis callback_returns :
  match cb with
  | None => True
  | Some f => forall m c t w, exists w', f m c t w = (Ok tt, w')
  end.
Hypothesis search_returns :
  forall q n w, exists rs w', search q n w = (Ok rs, w').
Hypothesis extract_returns :
  forall urls w, exists contents w', extract_multiple urls w = (Ok contents, w').
Hypothesis analysis_is_object :
  forall q rs contents w,
    exists kv w', analyze_search_results q rs contents w = (Ok (JObj kv), w').
Hypothesis synthesis_returns :
  forall topic all_rounds w,
    exists report w', synthesize_research topic all_rounds w = (Ok report, w').

Lemma notify_returns m c t (s : W) :
  exists s' evs, notify cb m c t s = Out (Ok tt) s' evs.
Proof.
  unfold notify. destruct cb as [f|]; [|eauto].
  destruct (callback_returns m c t s) as [w' ->]. eauto.
Qed.

Lemma search_queries_returns rn max rps qs acc srcs (s : W) :
  exists found s' evs,
    search_queries search cb rn max rps qs acc srcs s = Out (Ok found) s' evs.
Proof.
  revert acc srcs s. induction qs as [|q qs IH]; intros acc srcs s.
  { unfold search_queries, ret. eauto. }
  unfold search_queries; fold (search_queries search). unfold bind, external.
  destruct (notify_returns (MsgSearchQuery (rn + 1) max q) (rn + 1) max s)
    as (s1 & evs1 & ->).
  destruct (search_returns q rps s1) as (rs & s2 & ->).
  destruct (IH (acc ++ rs) (add_sources srcs rs) s2) as (found & s3 & evs3 & ->).
  eauto.
Qed.

Ltac returns_step :=
  match goal with
  | |- context [notify cb ?m ?c ?t ?s] =>
      destruct (notify_returns m c t s) as (? & ? & ->)
  | |- context [search_queries search cb ?rn ?max ?rps ?qs ?acc ?srcs ?s] =>
      destruct (search_queries_returns rn max rps qs acc srcs s)
        as (? & ? & ? & ->)
  | |- context [extract_multiple ?urls ?s] =>
      destruct (extract_returns urls s) as (? & ? & ->)
  | |- context [analyze_search_results ?q ?rs ?m ?s] =>
      destruct (analysis_is_object q rs m s) as (? & ? & ->)
  | |- context [synthesize_research ?t ?r ?s] =>
      destruct (synthesis_returns t r s) as (? & ? & ->)
  | |- context [generate_follow_up_queries ?a ?b ?c ?st] =>
      destruct (generate_follow_up_queries a b c st) as [[[|? ?]|?] ?]
  | |- context [Z.eqb ?a ?b] => destruct (Z.eqb a b) eqn:?
  | |- context [Z.leb ?a ?b] => destruct (Z.leb a b)
  | |- context [Py.truthy ?a] => destruct (Py.truthy a)
  end.

Lemma round_body_returns topic max rps rn rounds srcs (s : W) :
  (rn <> 0 -> rounds <> []) ->
  exists step s' evs,
    round_body search extract_multiple analyze_search_results
      generate_follow_up_queries topic max rps cb rn rounds srcs s
    = Out (Ok step) s' evs.
Proof.
  intros Hrounds.
  unfold round_body, _generate_queries, bind, try_except, emit, external,
    lift_res, ret, raise.
  destruct (last rounds) as [r|] eqn:Hlast.
  2: { apply last_None in Hlast.
       destruct (decide (rn = 0)) as [->|Hne]; [|by destruct (Hrounds Hne)].
       repeat (simpl; try returns_step); eauto. }
  repeat (simpl; try returns_step); eauto.
Qed.

Lemma research_loop_returns topic max rps todo rounds srcs (s : W) :
  (forall rn, head todo = Some rn -> rn <> 0 -> rounds <> []) ->
  exists st s' evs,
    research_loop search extract_multiple analyze_search_results
      generate_follow_up_queries topic max rps cb todo rounds srcs s
    = Out (Ok st) s' evs.
Proof.
  revert rounds srcs s.
  induction todo as [|rn todo IH]; intros rounds srcs s Hrounds.
  { simpl. unfold ret. eauto. }
  cbn [research_loop]. unfold bind.
  destruct (round_body_returns topic max rps rn rounds srcs s)
    as (step & s1 & evs1 & Hb); [by apply Hrounds|].
  rewrite Hb.
  apply round_body_run in Hb
    as (_ & _ & [(e & [=] & _)|[([= ->] & _)|(rd & ctl & [= ->] & _)]]).
  - unfold ret. eauto.
  - destruct ctl; [unfold ret; eauto|].
    destruct (IH (rounds ++ [rd]) (add_sources srcs (search_results rd)) s1)
      as (st & s2 & evs2 & ->); [|eauto].
    intros _ _ _ Hnil. by apply app_eq_nil in Hnil as [_ Hnil].
Qed.

(** Whatever the topic and the limits: when the callback, the search, the
    extraction and the synthesis return and every analysis is an object,
    [conduct_research] returns a result. *)
Lemma conduct_research_returns topic max_rounds rps (s : W) :
  exists r,
    val (conduct_research MAX_RESEARCH_ROUNDS RESULTS_PER_SEARCH search
           extract_multiple analyze_search_results
           generate_follow_up_queries synthesize_research now
           topic max_rounds rps cb s) = Ok r.
Proof.
  unfold conduct_research, bind at 1, emit at 1. unfold bind at 1.
  destruct (research_loop_returns topic
              (default MAX_RESEARCH_ROUNDS max_rounds)
              (default RESULTS_PER_SEARCH rps)
              (range (default MAX_RESEARCH_ROUNDS max_rounds)) [] ∅ s)
    as (st & s1 & evs1 & ->).
  { unfold range. intros rn Hhead Hrn.
    destruct (Z.to_nat _); simpl in Hhead; [discriminate|].
    injection Hhead as <-. contradiction. }
  unfold finish, bind, emit, external, ret.
  repeat (simpl; try returns_step). eauto.
Qed.

End Returns.

(** *** What the rounds are made of, and what the callback is told *)

Lemma progress_calls_app (l1 l2 : list event) :
  progress_calls (l1 ++ l2) = progress_calls l1 ++ progress_calls l2.
Proof.
  induction l1 as [|e l1 IH]; [reflexivity|].
  destruct e; simpl; rewrite ?IH; reflexivity.
Qed.

Lemma notify_calls (cb : callback) m c t (s : W) v s' evs :
  notify cb m c t s = Out v s' evs ->
  Forall (fun ct => ct = (c, t)) (progress_calls evs).
Proof.
  unfold notify. destruct cb as [f|].
  - destruct (f m c t s) as [r s1]. intros [= <- <- <-]. simpl. auto.
  - intros [= <- <- <-]. constructor.
Qed.

Lemma search_queries_made cb rn max rps qs acc srcs (s : W) v s' evs :
  search_queries search cb rn max rps qs acc srcs s = Out v s' evs ->
  Forall (fun ct => ct = (rn + 1, max)) (progress_calls evs) /\
  (forall found, v = Ok found ->
     exists per_query,
       fst found = acc ++ concat per_query /\
       Forall2 (fun q rs => exists w w', search q rps w = (Ok rs, w'))
         qs per_query).
Proof.
  revert acc srcs s v s' evs.
  induction qs as [|q qs IH]; intros acc srcs s v s' evs.
  { unfold search_queries, ret. intros [= <- <- <-]. split; [constructor|].
    intros found [= <-]. exists []. simpl. by rewrite app_nil_r. }
  unfold search_queries; fold (search_queries search). unfold bind, external.
  destruct (notify cb _ _ _ s) as [[[]|e] sn en] eqn:Hn;
    apply notify_calls in Hn.
  - destruct (search q rps sn) as [[results|e] s1] eqn:Hs.
    + destruct (search_queries _ _ _ _ _ qs _ _ s1) as [v2 s2 e2] eqn:Hq.
      apply IH in Hq as (Hp & Hok). intros [= <- <- <-].
      rewrite !progress_calls_app, !Forall_app. simpl.
      split; [auto|].
      intros found Hf. destruct (Hok found Hf) as (rss & Hfound & Hall).
      exists (results :: rss). simpl. rewrite Hfound, <- app_assoc.
      split; [reflexivity|]. constructor; [eauto|exact Hall].
    + intros [= <- <- <-]. rewrite app_nil_r. split; [exact Hn|discriminate].
  - intros [= <- <- <-]. split; [exact Hn|discriminate].
Qed.

Ltac crunch_made H :=
  repeat (simpl in H;
    match type of H with
    | context [notify ?cb ?m ?c ?t ?s] =>
        let Hn := fresh "Hn" in
        destruct (notify cb m c t s) as [[[]|?] ? ?] eqn:Hn;
        apply notify_calls in Hn
    | context [search_queries ?a ?b ?c ?d ?e ?f ?g ?h ?st] =>
        let Hq := fresh "Hq" in
        destruct (search_queries a b c d e f g h st) as [[[? ?]|?] ? ?] eqn:Hq;
        apply search_queries_made in Hq as (? & ?)
    | context [generate_follow_up_queries ?a ?b ?c ?st] =>
        destruct (generate_follow_up_queries a b c st) as [[?|?] ?] eqn:?
    | context [extract_multiple ?a ?st] =>
        destruct (extract_multiple a st) as [[?|?] ?] eqn:?
    | context [analyze_search_results ?a ?b ?c ?st] =>
        destruct (analyze_search_results a b c st) as [[?|?] ?] eqn:?
    | context [synthesize_research ?a ?b ?st] =>
        destruct (synthesize_research a b st) as [[?|?] ?] eqn:?
    | context [Z.eqb ?a ?b] => destruct (Z.eqb a b) eqn:?
    | context [Z.leb ?a ?b] => destruct (Z.leb a b) eqn:?
    | context [last ?l] => destruct (last l) eqn:?
    | context [Py.get ?a ?b ?c] => destruct (Py.get a b c) eqn:?
    | context [Py.truthy ?a] => destruct (Py.truthy a) eqn:?
    | context [match ?x with _ => _ end] => is_var x; destruct x
    end).

Ltac solve_calls :=
  repeat (simpl; rewrite ?progress_calls_app, ?Forall_app);
  repeat split; first [assumption | constructor].

(** One pass through the loop body tells the callback the number of its
    round and [max_rounds], and a round it appends is made as the round of
    that number. *)
Lemma round_body_made topic max rps cb rn rounds srcs (s : W) v s' evs :
  round_body search extract_multiple analyze_search_results
    generate_follow_up_queries topic max rps cb rn rounds srcs s
  = Out v s' evs ->
  Forall (fun ct => ct = (rn + 1, max)) (progress_calls evs) /\
  (forall ctl rounds' srcs', v = Ok (ctl, (rounds', srcs')) ->
     (ctl = Break /\ rounds' = rounds) \/
     exists rd, rounds' = rounds ++ [rd] /\
       made search extract_multiple analyze_search_results
         generate_follow_up_queries topic rps rn rounds rd).
Proof.
  unfold round_body, _generate_queries, bind, try_except, emit, external,
    lift_res, ret, raise.
  intros H. crunch_made H.
  all: injection H as <- <- <-.
  all: split; [solve_calls|].
  all: try (intros ctl rounds' srcs'; discriminate).
  all: try (intros ctl rounds' srcs' [= <- <- <-]; left; split; reflexivity).
  all: intros ctl rounds' srcs' [= <- <- <-]; right.
  all: eexists; split; [reflexivity|].
  all: match goal with
       | Hf : forall found, Ok ?a = Ok found -> _ |- _ =>
           destruct (Hf a eq_refl) as (per_query & Hfound & Hper)
       end.
  all: simpl in Hfound; unfold made, searched; simpl.
  all: split; [reflexivity|].
  all: split;
       [ first [ left; split; [by apply Z.eqb_eq|reflexivity]
               | right; split; [by apply Z.eqb_neq|]; eauto 6 ] |].
  all: split; [eauto|].
  all: split; eauto 6.
Qed.

Lemma constant_calls_sorted (c t : Z) (calls : list (Z * Z)) :
  Forall (fun ct => ct = (c, t)) calls -> StronglySorted Z.le (map fst calls).
Proof.
  induction 1 as [|ct calls -> Hall IH]; simpl; constructor; [exact IH|].
  apply Forall_forall. intros x Hx. apply list_elem_of_fmap in Hx as (ct & -> & Hct).
  eapply Forall_forall in Hall; [|exact Hct]. subst ct. simpl. lia.
Qed.

(** The loop from round index [a] with [n] indices to go: the callback is
    told round numbers between [a+1] and [a+n] that never decrease, always
    with [max_rounds] as the total; and the rounds appended are made one
    after the other, each on top of those before it. *)
Lemma research_loop_made topic max rps cb (n a : nat) rounds srcs (s : W)
    v s' evs :
  research_loop search extract_multiple analyze_search_results
    generate_follow_up_queries topic max rps cb
    (map Z.of_nat (seq a n)) rounds srcs s
  = Out v s' evs ->
  StronglySorted Z.le (map fst (progress_calls evs)) /\
  Forall (fun ct => Z.of_nat a + 1 <= fst ct <= Z.of_nat a + Z.of_nat n /\
                    snd ct = max) (progress_calls evs) /\
  (forall rounds' srcs', v = Ok (rounds', srcs') ->
     exists new, rounds' = rounds ++ new /\
       forall i rd, new !! i = Some rd ->
         made search extract_multiple analyze_search_results
           generate_follow_up_queries topic rps (Z.of_nat (a + i))
           (rounds ++ take i new) rd).
Proof.
  revert a rounds srcs s v s' evs.
  induction n as [|n IH]; intros a rounds srcs s v s' evs H.
  { simpl in H. injection H as <- <- <-. simpl.
    split; [constructor|]. split; [constructor|].
    intros rounds' srcs' [= <- <-]. exists []. rewrite app_nil_r.
    split; [reflexivity|]. intros i rd Hi. by rewrite lookup_nil in Hi. }
  simpl in H. unfold bind in H.
  destruct (round_body _ _ _ _ _ _ _ _ _ _ _ s) as [v1 s1 evs1] eqn:Hb.
  apply round_body_made in Hb as (Hcalls & Hmade).
  assert (Hrange1 : Forall (fun ct => Z.of_nat a + 1 <= fst ct
                                      <= Z.of_nat a + Z.of_nat (S n) /\
                                      snd ct = max) (progress_calls evs1)).
  { eapply Forall_impl; [exact Hcalls|]. intros ct ->. simpl. lia. }
  destruct v1 as [[[|] [rounds1 srcs1]]|e].
  - (* the pass breaks *)
    simpl in H. injection H as <- <- <-. rewrite app_nil_r.
    split; [by eapply constant_calls_sorted|]. split; [exact Hrange1|].
    intros rounds' srcs' [= <- <-].
    destruct (Hmade _ _ _ eq_refl) as [[_ ->]|(rd & -> & Hrd)].
    + exists []. rewrite app_nil_r. split; [reflexivity|].
      intros i rd Hi. by rewrite lookup_nil in Hi.
    + exists [rd]. split; [reflexivity|].
      intros [|i] rd' Hi; simpl in Hi; [|by rewrite lookup_nil in Hi].
      injection Hi as <-. simpl. by rewrite app_nil_r, Nat.add_0_r.
  - (* on to the next round *)
    destruct (Hmade _ _ _ eq_refl) as [[[=] _]|(rd & -> & Hrd)].
    destruct (research_loop _ _ _ _ _ _ _ _ _ _ _ s1) as [v2 s2 evs2] eqn:Hl.
    injection H as <- <- <-.
    apply IH in Hl as (Hsorted & Hrange & Hnew).
    rewrite progress_calls_app, map_app. split; [|split].
    + apply StronglySorted_app_2;
        [|by eapply constant_calls_sorted|exact Hsorted].
      intros x1 x2 H1 H2.
      apply list_elem_of_fmap in H1 as (ct1 & -> & H1).
      apply list_elem_of_fmap in H2 as (ct2 & -> & H2).
      eapply Forall_forall in Hcalls; [|exact H1]. subst ct1.
      eapply Forall_forall in Hrange; [|exact H2]. simpl in *. lia.
    + apply Forall_app. split; [exact Hrange1|].
      eapply Forall_impl; [exact Hrange|]. intros ct. simpl. lia.
    + intros rounds' srcs' Hv.
      destruct (Hnew _ _ Hv) as (new & -> & Hmade2).
      exists (rd :: new). rewrite <- app_assoc. split; [reflexivity|].
      intros [|i] rd' Hi; simpl in Hi.
      * injection Hi as <-. simpl. by rewrite app_nil_r, Nat.add_0_r.
      * specialize (Hmade2 i rd' Hi). simpl.
        replace (a + S i)%nat with (S a + i)%nat by lia.
        by rewrite <- app_assoc in Hmade2.
  - (* the pass raised *)
    injection H as <- <- <-.
    split; [by eapply constant_calls_sorted|]. split; [exact Hrange1|].
    intros rounds' srcs'. discriminate.
Qed.

(** What follows the loop tells the callback [max_rounds] of
    [max_rounds]; when there is a callback and the run returns, that is
    the one thing it is told. *)
Lemma finish_calls topic max cb rounds srcs (s : W) v s' evs :
  finish synthesize_research now topic max cb rounds srcs s = Out v s' evs ->
  Forall (fun ct => ct = (max, max)) (progress_calls evs) /\
  (forall r f, v = Ok r -> cb = Some f -> progress_calls evs = [(max, max)]).
Proof.
  unfold finish, notify, bind, emit, external, ret.
  destruct cb as [f|].
  - destruct (f MsgReport max max s) as [[[]|e] s1]; simpl.
    + destruct (synthesize_research _ _ s1) as [[report|e] s2]; simpl;
        intros [= <- <- <-]; simpl; split; auto; discriminate.
    + intros [= <- <- <-]. simpl. split; [auto|discriminate].
  - simpl. destruct (synthesize_research _ _ s) as [[report|e] s2]; simpl;
      intros [= <- <- <-]; simpl; split; auto; discriminate.
Qed.

(** The whole run, as to the callback and as to the rounds. *)
Lemma conduct_research_made topic max_rounds rps cb (s : W) v s' evs :
  let max := default MAX_RESEARCH_ROUNDS max_rounds in
  conduct_research MAX_RESEARCH_ROUNDS RESULTS_PER_SEARCH search
    extract_multiple analyze_search_results
    generate_follow_up_queries synthesize_research now
    topic max_rounds rps cb s = Out v s' evs ->
  StronglySorted Z.le (map fst (progress_calls evs)) /\
  Forall (fun ct => snd ct = max /\ fst ct <= max /\ (1 <= max -> 1 <= fst ct))
    (progress_calls evs) /\
  (forall r f, v = Ok r -> cb = Some f ->
     last (progress_calls evs) = Some (max, max)) /\
  (forall r, v = Ok r ->
     forall i rd, Orchestrator.rounds r !! i = Some rd ->
       made search extract_multiple analyze_search_results
         generate_follow_up_queries topic (default RESULTS_PER_SEARCH rps)
         (Z.of_nat i) (take i (Orchestrator.rounds r)) rd).
Proof.
  intros max. unfold conduct_research. fold max.
  unfold bind at 1, emit at 1. unfold bind at 1. unfold range.
  destruct (research_loop _ _ _ _ _ _ _ _ _ _ _ s) as [v1 s1 evl] eqn:Hl.
  apply research_loop_made in Hl as (Hsorted & Hrange & Hnew).
  assert (Hrange' : Forall (fun ct => snd ct = max /\ fst ct <= max /\
                                      (1 <= max -> 1 <= fst ct))
                      (progress_calls evl)).
  { eapply Forall_impl; [exact Hrange|]. intros ct. simpl. lia. }
  destruct v1 as [[rounds1 srcs1]|e].
  2: { intros [= <- <- <-]. simpl.
       split; [exact Hsorted|]. split; [exact Hrange'|].
       split; intros; discriminate. }
  cbn [fst snd].
  destruct (finish _ _ _ _ _ _ _ s1) as [v2 s2 evf] eqn:Hf.
  pose proof Hf as Hf'. apply finish_run in Hf' as (_ & _ & _ & Hr).
  apply finish_calls in Hf as (Hfin & Hlast).
  intros [= <- <- <-]. simpl. rewrite progress_calls_app, map_app.
  split; [|split; [|split]].
  - apply StronglySorted_app_2;
      [|exact Hsorted|by eapply constant_calls_sorted].
    intros x1 x2 H1 H2.
    apply list_elem_of_fmap in H1 as (ct1 & -> & H1).
    apply list_elem_of_fmap in H2 as (ct2 & -> & H2).
    eapply Forall_forall in Hfin; [|exact H2]. subst ct2.
    eapply Forall_forall in Hrange; [|exact H1]. simpl in *. lia.
  - apply Forall_app. split; [exact Hrange'|].
    eapply Forall_impl; [exact Hfin|]. intros ct ->. simpl. lia.
  - intros r f Hv Hcb. rewrite (Hlast r f Hv Hcb). apply last_snoc.
  - intros r Hv. destruct (Hr r Hv) as (-> & _).
    destruct (Hnew _ _ eq_refl) as (new & Hnew' & Hmade).
    simpl in Hnew'. subst rounds1. intros i rd Hi.
    specialize (Hmade i rd Hi). simpl in Hmade. exact Hmade.
Qed.

(** X8. What [conduct_research] tells the progress callback.  Every call
    has [total = max_rounds] and [current <= total]; with
    [max_rounds >= 1], [current >= 1] as well, so that [current / total]
    is defined and lies in (0, 1].  The values of [current] never
    decrease along the run.  A run that returns told the callback
    [current = total] last. *)
Theorem progress_reports_are_monotone topic max_rounds rps cb (s : W) :
  let max := default MAX_RESEARCH_ROUNDS max_rounds in
  let o := conduct_research MAX_RESEARCH_ROUNDS RESULTS_PER_SEARCH search
             extract_multiple analyze_search_results
             generate_follow_up_queries synthesize_research now
             topic max_rounds rps cb s in
  let calls := progress_calls (emitted o) in
  (forall current total, (current, total) ∈ calls ->
     total = max /\ current <= total /\ (1 <= max -> 1 <= current)) /\
  StronglySorted Z.le (map fst calls) /\
  (forall r f, val o = Ok r -> cb = Some f -> last calls = Some (max, max)).
Proof.
  intros max o calls. subst calls o.
  destruct (conduct_research _ _ _ _ _ _ _ _ _ _ _ _ s) as [v s' evs] eqn:H.
  apply conduct_research_made in H as (Hsorted & Hall & Hlast & _).
  fold max in Hall, Hlast. cbn [val emitted].
  split; [|split; [exact Hsorted|exact Hlast]].
  intros current total Hin.
  eapply Forall_forall in Hall; [|exact Hin]. simpl in Hall.
  destruct Hall as (-> & Hle & Hone). auto.
Qed.

(** X9. What the rounds of a returned result are made of.  Round [i+1]
    has the number [i+1] and a non-empty query list: [[topic]] for round
    1, and for a later round what [generate_follow_up_queries] returned
    for the analysis of the round before.  Its search results are what
    the searches for its queries returned, one query after the other; its
    contents are what [extract_multiple] returned for the URLs of the
    first ten search results; and its analysis is what
    [analyze_search_results] returned for its first query, all its search
    results and these contents. *)
Theorem rounds_are_made_in_order topic max_rounds rps cb (s : W) r i rd :
  let k := default RESULTS_PER_SEARCH rps in
  val (conduct_research MAX_RESEARCH_ROUNDS RESULTS_PER_SEARCH search
         extract_multiple analyze_search_results
         generate_follow_up_queries synthesize_research now
         topic max_rounds rps cb s) = Ok r ->
  Orchestrator.rounds r !! i = Some rd ->
  round_number rd = Z.of_nat i + 1 /\
  queries rd <> [] /\
  (i = 0%nat -> queries rd = [topic]) /\
  (forall prev,
     (0 < i)%nat -> Orchestrator.rounds r !! (i - 1)%nat = Some prev ->
     exists w w',
       generate_follow_up_queries topic (analysis prev) (Z.of_nat i) w
       = (Ok (queries rd), w')) /\
  (exists per_query,
     search_results rd = concat per_query /\
     Forall2 (fun q rs => exists w w', search q k w = (Ok rs, w'))
       (queries rd) per_query) /\
  (exists w w',
     extract_multiple (map url (take 10 (search_results rd))) w
     = (Ok (extracted_contents rd), w')) /\
  (exists query0 w w',
     head (queries rd) = Some query0 /\
     analyze_search_results query0 (search_results rd) (extracted_contents rd) w
     = (Ok (analysis rd), w')).
Proof.
  intros k.
  destruct (conduct_research _ _ _ _ _ _ _ _ _ _ _ _ s) as [v s' evs] eqn:H.
  apply conduct_research_made in H as (_ & _ & _ & Hmade).
  cbn [val]. intros -> Hi.
  destruct (Hmade r eq_refl i rd Hi) as (Hnum & Hq & Hs & He & Ha).
  split; [exact Hnum|].
  split.
  { destruct Ha as (q0 & _ & _ & Hhead & _). intros Hnil.
    rewrite Hnil in Hhead. discriminate. }
  split.
  { intros ->. destruct Hq as [[_ Hq]|[Hne _]]; [exact Hq|].
    by destruct Hne. }
  split.
  { intros prev Hpos Hprev.
    destruct Hq as [[H0 _]|(_ & prev' & w & w' & Hlast & Hgen)]; [lia|].
    assert (prev' = prev) as ->; [|eauto].
    rewrite last_lookup in Hlast.
    pose proof (lookup_lt_Some _ _ _ Hi) as Hlt.
    rewrite length_take, Nat.min_l in Hlast by lia.
    rewrite lookup_take_lt in Hlast by lia.
    replace (pred i) with (i - 1)%nat in Hlast by lia. congruence. }
  split; [exact Hs|]. split; [exact He|exact Ha].
Qed.

(** X10. With [max_rounds <= 0] the loop is not entered: no round is
    announced, no query made; what is left is the report.  The callback,
    if there is one, is told [(max_rounds, max_rounds)] once; a result
    that is returned has no round and no source, and its report is what
    the synthesis made of no round at all. *)
Theorem no_rounds_when_max_is_not_positive topic max_rounds rps cb (s : W) :
  let max := default MAX_RESEARCH_ROUNDS max_rounds in
  max <= 0 ->
  let o := conduct_research MAX_RESEARCH_ROUNDS RESULTS_PER_SEARCH search
             extract_multiple analyze_search_results
             generate_follow_up_queries synthesize_research now
             topic max_rounds rps cb s in
  banners (emitted o) = [] /\
  (forall current total, (current, total) ∈ progress_calls (emitted o) ->
     current = max /\ total = max) /\
  (forall r, val o = Ok r ->
     Orchestrator.rounds r = [] /\ all_sources r = [] /\
     total_rounds r = 0%nat /\
     exists w w', synthesize_research topic [] w = (Ok (final_report r), w')).
Proof.
  intros max Hmax o. subst o.
  unfold conduct_research. fold max. unfold range.
  replace (Z.to_nat max) with 0%nat by lia.
  unfold bind, emit. cbn [seq map research_loop ret fst snd].
  fold (@bind W event). fold (@emit W event).
  destruct (finish _ _ _ _ _ _ _ s) as [v2 s2 evf] eqn:Hf.
  pose proof Hf as Hf'. apply finish_run in Hf' as (Hb & _ & _ & Hr).
  apply finish_calls in Hf as (Hfin & _). cbn [val emitted app].
  cbn [banners progress_calls].
  split; [exact Hb|]. split.
  - intros current total Hin.
    eapply Forall_forall in Hfin; [|exact Hin]. by injection Hfin as -> ->.
  - intros r Hv. destruct (Hr r Hv) as (Hrounds & Hsrc & Htotal & Hsyn).
    split; [exact Hrounds|]. split; [|split; [exact Htotal|exact Hsyn]].
    rewrite Hsrc. unfold sorted. by rewrite elements_empty.
Qed.

(** *** What a run costs *)

Section Cost.
(** A cost read off the world, which only [extract_multiple] may raise,
    by at most [per_url] for each URL it is given. *)
Variable cost : W -> nat.
Variable per_url : nat.
Variable cb : callback (W := W).
Hypothesis callback_cost :
  match cb with
  | None => True
  | Some f => forall m c t w, (cost (snd (f m c t w)) <= cost w)%nat
  end.
Hypothesis search_cost :
  forall q n w, (cost (snd (search q n w)) <= cost w)%nat.
Hypothesis extract_cost :
  forall urls w,
    (cost (snd (extract_multiple urls w)) <= cost w + per_url * length urls)%nat.
Hypothesis analyze_cost :
  forall q rs contents w,
    (cost (snd (analyze_search_results q rs contents w)) <= cost w)%nat.
Hypothesis generate_cost :
  forall topic analysis n w,
    (cost (snd (generate_follow_up_queries topic analysis n w)) <= cost w)%nat.
Hypothesis synthesize_cost :
  forall topic all_rounds w,
    (cost (snd (synthesize_research topic all_rounds w)) <= cost w)%nat.








End Cost.

End OrchestratorFacts.

(** ** The orchestrator with its collaborators wired in *)

Section SystemFacts.
Import Orchestrator.
Context {Wn prompt : Type}.
Variable MAX_RESEARCH_ROUNDS RESULTS_PER_SEARCH MAX_CONCURRENT_REQUESTS : Z.
Variable ddgs_text : pystr -> Z -> Wn -> res (list SearchEngine.hit) * Wn.
Variable fetch_page : pystr -> Wn -> ContentExtractor.page * Wn.
Variable call_api : prompt -> Wn -> res pystr * Wn.
Variable json_loads : pystr -> option json.
Variable analysis_prompt :
  pystr -> list SearchRecord -> gmap pystr pystr -> prompt.
Variable synthesis_prompt : pystr -> list (list pystr * list json) -> prompt.
Variable generate_follow_up_queries :
  pystr -> json -> Z -> Wn -> res (list pystr) * Wn.
Variable now : Wn -> Z.

(** X11. In the wired system, the contents of a round come from the
    search results of that round: every URL with a text in
    [extracted_contents] is the [url] of one of the first ten search
    results of the round, no text is empty, and there are at most ten of
    them. *)
Theorem contents_come_from_first_ten_results topic max_rounds rps cb
    (st : System.state Wn) r rd :
  val (System.conduct_research MAX_RESEARCH_ROUNDS RESULTS_PER_SEARCH
         MAX_CONCURRENT_REQUESTS ddgs_text fetch_page call_api json_loads
         analysis_prompt synthesis_prompt generate_follow_up_queries now
         topic max_rounds rps cb st) = Ok r ->
  rd ∈ Orchestrator.rounds r ->
  (size (extracted_contents rd) <= 10)%nat /\
  forall u text, extracted_contents rd !! u = Some text ->
    text <> [] /\
    exists rec, rec ∈ take 10 (search_results rd) /\ url rec = u.
Proof.
  unfold System.conduct_research.
  destruct (conduct_research _ _ _ _ _ _ _ _ _ _ _ _ st) as [v s' evs] eqn:H.
  apply conduct_research_made in H as (_ & _ & _ & Hmade).
  cbn [val]. intros -> Hrd.
  apply list_elem_of_lookup in Hrd as [i Hi].
  destruct (Hmade r eq_refl i rd Hi) as (_ & _ & _ & (w & w' & He) & _).
  unfold System.on_extractor in He. injection He as He _.
  apply extract_multiple_returned in He as (Hsize & Hr).
  rewrite length_map, length_take in Hsize.
  split; [lia|]. intros u text Hu.
  destruct (Hr u text Hu) as (Hin & Hne & _).
  split; [exact Hne|]. apply list_elem_of_fmap in Hin as (rec & -> & Hin).
  eauto.
Qed.








Section Readable.
(** The model answers every analysis prompt, and the JSON values its
    answers decode to are readable. *)
Hypothesis analysis_answers_readable :
  forall q rs contents w,
    exists response w',
      call_api (analysis_prompt q rs contents) w = (Ok response, w') /\
      forall a,
        json_loads (PyStr.strip (AIAnalyzer.strip_fences response)) = Some a ->
        readable a = true.



End Readable.

End SystemFacts.

(** ** The configuration and the choice of the model *)

Section ConfigurationFacts.
Context {W E : Type}.
Variable settings : Settings.env.
Variable mkdir_output_dir : W -> res unit * W.
Variable make_client : AIAnalyzer.AIProvider -> W -> res unit * W.

(** X15. The models the user interface offers can be built.  For every
    entry of the select box, [AIAnalyzer.__init__] of the provider chosen
    gets past its key check: it raises only what the construction of the
    client raises.  The box has an entry exactly when the OpenAI or the
    Anthropic key is set, whereas [validate_api_keys] accepts any of the
    three keys: when the output directory can be made it answers [True]
    exactly when one of them is set, and without any key it answers
    [False] and makes no directory. *)
Theorem offered_models_can_be_built :
  (forall choice, choice ∈ App.ai_options settings ->
     exists a, AIAnalyzer.provider a = App.ai_provider choice /\
       forall w : W,
         AIAnalyzer.__init__ (E := E) settings make_client
           (App.ai_provider choice) w
         = Out (match fst (make_client (App.ai_provider choice) w) with
                | Ok _ => Ok a
                | Raise e => Raise e
                end)
               (snd (make_client (App.ai_provider choice) w)) []) /\
  (App.ai_options settings = [] <->
   Settings.OPENAI_API_KEY settings = [] /\
   Settings.ANTHROPIC_API_KEY settings = []) /\
  (forall w w', mkdir_output_dir w = (Ok tt, w') ->
     val (App.validate_api_keys (E := E) mkdir_output_dir settings w)
     = Ok (Settings.is_set (Settings.DEEPSEEK_API_KEY settings)
           || Settings.is_set (Settings.OPENAI_API_KEY settings)
           || Settings.is_set (Settings.ANTHROPIC_API_KEY settings))) /\
  (Settings.DEEPSEEK_API_KEY settings = [] ->
   Settings.OPENAI_API_KEY settings = [] ->
   Settings.ANTHROPIC_API_KEY settings = [] ->
   forall w,
     App.validate_api_keys (E := E) mkdir_output_dir settings w
     = Out (Ok false) w []).
Proof.
  split; [|split; [|split]].
  - intros choice Hin. unfold App.ai_options in Hin.
    apply elem_of_app in Hin as [Hin|Hin].
    + destruct (Settings.is_set (Settings.OPENAI_API_KEY settings)) eqn:Hk;
        [|by apply elem_of_nil in Hin].
      apply list_elem_of_singleton in Hin as ->.
      change (App.ai_provider (PyStr.lit "OpenAI GPT-4")) with AIAnalyzer.OPENAI.
      eexists. split; [|intros w].
      2: { unfold AIAnalyzer.__init__, bind, external, ret. rewrite Hk.
           cbn [negb].
           destruct (make_client AIAnalyzer.OPENAI w) as [[[]|e] w'];
             reflexivity. }
      reflexivity.
    + destruct (Settings.is_set (Settings.ANTHROPIC_API_KEY settings)) eqn:Hk;
        [|by apply elem_of_nil in Hin].
      apply list_elem_of_singleton in Hin as ->.
      change (App.ai_provider (PyStr.lit "Anthropic Claude"))
        with AIAnalyzer.ANTHROPIC.
      eexists. split; [|intros w].
      2: { unfold AIAnalyzer.__init__, bind, external, ret. rewrite Hk.
           cbn [negb].
           destruct (make_client AIAnalyzer.ANTHROPIC w) as [[[]|e] w'];
             reflexivity. }
      reflexivity.
  - unfold App.ai_options.
    destruct (Settings.OPENAI_API_KEY settings),
      (Settings.ANTHROPIC_API_KEY settings); simpl;
      split; try discriminate; try (intros [? ?]; discriminate); auto.
  - intros w w' Hmk.
    unfold App.validate_api_keys, Settings.validate, try_except, bind,
      external, ret, raise.
    destruct (Settings.is_set (Settings.DEEPSEEK_API_KEY settings)),
      (Settings.is_set (Settings.OPENAI_API_KEY settings)),
      (Settings.is_set (Settings.ANTHROPIC_API_KEY settings));
      cbn [negb andb orb]; rewrite ?Hmk; reflexivity.
  - intros H1 H2 H3 w.
    unfold App.validate_api_keys, Settings.validate, try_except, bind,
      external, ret, raise.
    rewrite H1, H2, H3. reflexivity.
Qed.

End ConfigurationFacts.

(** ** The export manager *)

Section ExportFacts.
Import ExportManager.
Context {W : Type}.
Variable isalnum : N -> bool.
Variable timestamp : W -> pystr.
Variable joinpath : pystr -> pystr -> pystr.
Variable write_text : pystr -> pystr -> W -> res unit * W.
Variable write_pdf : pystr -> pystr -> W -> res unit * W.

Lemma safe_char_allowed (c : N) : allowed isalnum (safe_char isalnum c).
Proof.
  unfold allowed, safe_char.
  destruct (isalnum c) eqn:Ha; simpl; [auto|].
  destruct (N.eqb_spec c 32); simpl; [auto|].
  destruct (N.eqb_spec c 45); simpl; [auto|].
  destruct (N.eqb_spec c 95); simpl; auto.
Qed.

Lemma safe_char_id (c : N) : allowed isalnum c -> safe_char isalnum c = c.
Proof.
  unfold allowed, safe_char. intros [Ha | [-> | [-> | ->]]];
    [by rewrite Ha|by rewrite ?orb_true_r..].
Qed.

Lemma elem_of_lstrip (c : N) (s : pystr) : c ∈ PyStr.lstrip s -> c ∈ s.
Proof.
  induction s as [|x s IH]; simpl; [auto|].
  destruct (PyStr.isspace x); [|auto].
  intros H. apply list_elem_of_further. by apply IH.
Qed.

Lemma elem_of_strip (c : N) (s : pystr) : c ∈ PyStr.strip s -> c ∈ s.
Proof.
  unfold PyStr.strip, PyStr.rstrip. intros H.
  apply elem_of_lstrip.
  apply list_elem_of_In, in_rev, list_elem_of_In in H.
  apply elem_of_lstrip in H.
  by apply list_elem_of_In, in_rev, list_elem_of_In.
Qed.

(** X16. The file names the export manager generates.  The name is the
    cleaned topic, an underscore, the time stamp, a dot and the
    extension.  The cleaned topic has at most 50 characters, each of them
    alphanumeric, a space, a hyphen or an underscore; and a topic that is
    made of such characters, has no white space at its ends and is not
    longer than 50 characters is kept as it is. *)
Theorem generated_filename_is_clean topic extension (w : W) :
  let o := _generate_filename isalnum timestamp topic extension w in
  let stem := safe_topic isalnum topic in
  o = Out (Ok (stem ++ PyStr.lit "_" ++ timestamp w ++ PyStr.lit "."
               ++ extension)) w [] /\
  (length stem <= 50)%nat /\
  (forall c, c ∈ stem -> allowed isalnum c) /\
  ((length topic <= 50)%nat -> (forall c, c ∈ topic -> allowed isalnum c) ->
   PyStr.strip topic = topic -> stem = topic).
Proof.
  intros o stem. subst o stem. split; [reflexivity|].
  unfold safe_topic. split; [rewrite length_take; lia|]. split.
  - intros c Hc. apply elem_of_take in Hc as (i & Hi & _).
    apply list_elem_of_lookup_2 in Hi. apply elem_of_strip in Hi.
    apply list_elem_of_fmap in Hi as (c0 & -> & _). apply safe_char_allowed.
  - intros Hlen Hall Hstrip.
    assert (Hmap : map (safe_char isalnum) topic = topic).
    { clear Hlen Hstrip. induction topic as [|c t IH]; [reflexivity|].
      simpl. rewrite safe_char_id by (apply Hall; apply list_elem_of_here).
      f_equal. apply IH. intros c' Hc'. apply Hall.
      by apply list_elem_of_further. }
    rewrite Hmap, Hstrip. by apply take_ge.
Qed.

Lemma drop_dot (name : pystr) :
  PyStr.slice_drop_last 1 (name ++ PyStr.lit "." ++ []) = name.
Proof. rewrite app_nil_r. apply (slice_drop_last_app (PyStr.lit ".")). Qed.

Lemma filename_given (name suffix : pystr) (c : N) topic extension :
  filename_or_generated (W := W) isalnum timestamp
    (Some (name ++ c :: suffix)) topic extension
  = ret (name ++ c :: suffix).
Proof. unfold filename_or_generated. by destruct name. Qed.

(** X17. [export_both] writes both files under one name.  The two names
    are those [_generate_filename] gives for [md] and for [pdf] at the
    moment of the call: the clock is read once.  The Markdown file is
    written first; when that fails, the exception is logged and raised
    and the PDF is not attempted; when the PDF fails, the exception is
    logged and raised and the Markdown file stays written. *)
Theorem export_both_shares_one_name output_dir content topic (w : W) :
  let name extension :=
    safe_topic isalnum topic ++ PyStr.lit "_" ++ timestamp w
    ++ PyStr.lit "." ++ extension in
  let md := joinpath output_dir (name (PyStr.lit "md")) in
  let pdf := joinpath output_dir (name (PyStr.lit "pdf")) in
  val (_generate_filename isalnum timestamp topic (PyStr.lit "md") w)
  = Ok (name (PyStr.lit "md")) /\
  val (_generate_filename isalnum timestamp topic (PyStr.lit "pdf") w)
  = Ok (name (PyStr.lit "pdf")) /\
  export_both isalnum timestamp joinpath write_text write_pdf
    output_dir content topic w
  = match write_text md content w with
    | (Raise e, w1) => Out (Raise e) w1 [(ERROR, MarkdownFailed e)]
    | (Ok _, w1) =>
        match write_pdf pdf content w1 with
        | (Raise e, w2) =>
            Out (Raise e) w2
              [(INFO, MarkdownExported md); (ERROR, PdfFailed e)]
        | (Ok _, w2) =>
            Out (Ok (md, pdf)) w2
              [(INFO, MarkdownExported md); (INFO, PdfExported pdf)]
        end
    end.
Proof.
  intros name md pdf. split; [reflexivity|]. split; [reflexivity|].
  assert (Hname : forall ext,
    filename_or_generated (W := W) isalnum timestamp
      (Some (PyStr.slice_drop_last 1
               (safe_topic isalnum topic ++ PyStr.lit "_" ++ timestamp w
                ++ PyStr.lit "." ++ [])
             ++ PyStr.lit "." ++ ext)) topic ext
    = ret (name ext)).
  { intros ext.
    rewrite (app_assoc (safe_topic isalnum topic)), (app_assoc _ (timestamp w)).
    rewrite drop_dot. rewrite <- !app_assoc.
    apply (filename_given (safe_topic isalnum topic)
             (timestamp w ++ PyStr.lit "." ++ ext) 95). }
  unfold export_both, export_markdown, export_pdf.
  unfold bind at 1. unfold _generate_filename at 1.
  change (PyStr.lit ".md") with (PyStr.lit "." ++ PyStr.lit "md").
  change (PyStr.lit ".pdf") with (PyStr.lit "." ++ PyStr.lit "pdf").
  rewrite !Hname.
  unfold bind, try_except, external, emit, ret, raise.
  fold md. fold pdf.
  destruct (write_text md content w) as [[[]|e] w1]; [|reflexivity].
  destruct (write_pdf pdf content w1) as [[[]|e] w2]; reflexivity.
Qed.

End ExportFacts.

(* ===================================================================== *)
(** * The properties at work on the test doubles *)
(* ===================================================================== *)

Section Examples.
Import Doubles.









(** Against C3 as stated.  A callback that raises: the research raises at
    the first checkpoint, where the same research without a callback
    returns a result. *)
Lemma callback_raise_aborts_research :
  val (research ddgs_two doc_no_gaps follow_up topic None None cb_raises start)
  = Raise boom /\
  is_ok (val (research ddgs_two doc_no_gaps follow_up topic None None None start))
  = true.
Proof. split; vm_compute; reflexivity. Qed.

(** C3 at work.  A callback that raises when the extraction of round 1
    starts: that is where the research ends. *)
Lemma callback_failure_aborts_witness :
  val (research ddgs_two doc_no_gaps follow_up topic None None
         cb_raises_at_extraction start)
  = Raise boom /\
  last (emitted (research ddgs_two doc_no_gaps follow_up topic None None
                   cb_raises_at_extraction start))
  = Some (Progress (MsgExtracting 1 3) 1 3 (Some boom)).
Proof.
  unfold research, System.conduct_research.
  apply callback_failure_aborts.
  apply list_elem_of_lookup. exists 5%nat. vm_compute. reflexivity.
Defined.

(** C4 at work.  Gaps in every round and follow-up queries at hand: the
    run returns, within three passes under [max_rounds = 3]. *)
Lemma rounds_numbered_to_max_witness :
  is_ok (val (research ddgs_two doc_gaps follow_up topic None None None start))
  = true /\
  Z.of_nat (length (banners
     (emitted (research ddgs_two doc_gaps follow_up topic None None None start))))
  <= 3 /\
  forall r,
    val (research ddgs_two doc_gaps follow_up topic None None None start) = Ok r ->
    exists k : nat,
      1 <= Z.of_nat k <= 3 /\
      map Orchestrator.round_number (Orchestrator.rounds r)
      = map Z.of_nat (seq 1 k) /\
      length (Orchestrator.rounds r) = k /\
      Orchestrator.total_rounds r = k.
Proof.
  split; [vm_compute; reflexivity|].
  unfold research, System.conduct_research.
  apply rounds_numbered_to_max. simpl. lia.
Defined.

(** Against C5 as stated.  A hit without [href] becomes a record with the
    empty [url]: it is not among [all_sources], but it is in the union of
    the [url] fields. *)
Lemma empty_url_is_not_a_source :
  match val (research ddgs_no_href doc_no_gaps follow_up topic None None None
               start)
  with
  | Ok r => Orchestrator.all_sources r = [] /\
            union_of_urls (Orchestrator.rounds r) = [[]]
  | Raise _ => False
  end.
Proof. vm_compute. split; reflexivity. Qed.

(** C5 at work.  Two hits, b.com and a.com: the sources are a.com, b.com. *)
Lemma all_sources_sorted_union_witness :
  exists r,
    val (research ddgs_two doc_no_gaps follow_up topic None None None start)
    = Ok r /\
    Orchestrator.all_sources r = [a_com; b_com] /\
    StronglySorted PyStr.lt (Orchestrator.all_sources r) /\
    forall u, u ∈ Orchestrator.all_sources r <->
      u <> [] /\
      exists rd rec, rd ∈ Orchestrator.rounds r /\
                     rec ∈ Orchestrator.search_results rd /\ url rec = u.
Proof.
  destruct (val (research ddgs_two doc_no_gaps follow_up topic None None None
                   start)) as [r|e] eqn:H; [|vm_compute in H; discriminate].
  exists r. split; [reflexivity|]. split.
  - vm_compute in H. injection H as <-. reflexivity.
  - unfold research, System.conduct_research in H.
    exact (all_sources_sorted_union _ _ _ _ _ _ _ _ _ _ _ _ _ _ H).
Defined.

(** C6 at work.  Round 1 reports [gaps = []] under [max_rounds = 3]: one
    round. *)
Lemma continue_decision_witness :
  exists r,
    val (research ddgs_two doc_no_gaps follow_up topic (Some 3) None None start)
    = Ok r /\
    Orchestrator.total_rounds r = 1%nat.
Proof.
  destruct (val (research ddgs_two doc_no_gaps follow_up topic (Some 3) None
                   None start)) as [r|e] eqn:H; [|vm_compute in H; discriminate].
  exists r. split; [reflexivity|].
  pose proof H as H'. unfold research, System.conduct_research in H'.
  destruct (continue_decision _ _ _ _ _ _ _ _ _ _ _ _ _ _ H') as [_ Hone].
  vm_compute in H. injection H as <-.
  eapply Hone; vm_compute; reflexivity.
Defined.


(** X3 at work.  No page can be fetched: three requests for the URL,
    sleeps of 1 and 2 seconds, [None].  A page that fails to parse: one
    request, no sleep, [None]. *)
Lemma extract_content_retry_policy_witness :
  (val (ContentExtractor.extract_content page_down a_com fresh) = Ok None /\
   http_gets (emitted (ContentExtractor.extract_content page_down a_com fresh))
   = [a_com; a_com; a_com] /\
   SearchEngine.sleeps
     (emitted (ContentExtractor.extract_content page_down a_com fresh))
   = [1; 2]) /\
  (val (ContentExtractor.extract_content page_broken a_com fresh) = Ok None /\
   http_gets (emitted (ContentExtractor.extract_content page_broken a_com fresh))
   = [a_com]).
Proof.
  split.
  - destruct (extract_content_retry_policy page_down a_com fresh eq_refl)
      as [H _].
    destruct H as (H1 & H2 & H3 & _).
    { intros w. exists boom, (S w). reflexivity. }
    split; [exact H1|]. split; [exact H2|exact H3].
  - destruct (extract_content_retry_policy page_broken a_com fresh eq_refl)
      as [_ H].
    destruct (H (ContentExtractor.OtherFailure boom) 1%nat eq_refl)
      as (H1 & H2 & _); [right; by exists boom|].
    split; [exact H1|exact H2].
Defined.

(** X4 at work.  A page of 6000 characters, extracted by an extractor
    that has already extracted another page: 5003 characters at most. *)
Lemma extracted_text_within_limit_witness :
  exists text,
    val (ContentExtractor.extract_content page_long a_com
           (post (ContentExtractor.extract_content page_long b_com fresh)))
    = Ok (Some text) /\
    (length text <= settings.MAX_CONTENT_LENGTH + 3)%nat.
Proof.
  destruct (val (ContentExtractor.extract_content page_long a_com
                   (post (ContentExtractor.extract_content page_long b_com
                            fresh)))) as [[text|]|e] eqn:H;
    [|vm_compute in H; discriminate..].
  exists text. split; [reflexivity|].
  apply (extracted_text_within_limit 5 page_long 0%nat
           (post (ContentExtractor.extract_content page_long b_com fresh))
           a_com text); [|exact H].
  apply rtc_once. apply (ContentExtractor.step_extract 5 page_long b_com).
Defined.


(** X6 at work.  The answer "  ```json hello ``` " comes out as
    " hello ". *)
Lemma strip_fences_unwraps_witness :
  AIAnalyzer.strip_fences (PyStr.lit "  ```json hello ``` ")
  = PyStr.lit " hello ".
Proof.
  destruct (strip_fences_unwraps (PyStr.lit "  ") (PyStr.lit " ")
              (PyStr.lit " hello ")) as [H _].
  - repeat constructor.
  - repeat constructor.
  - apply H. reflexivity.
Defined.


(** X9 at work.  Gaps in every round: the second round has the number 2
    and the queries the follow-up generation returned. *)
Lemma rounds_are_made_in_order_witness :
  exists r rd,
    val (research ddgs_two doc_gaps follow_up topic None None None start)
    = Ok r /\
    Orchestrator.rounds r !! 1%nat = Some rd /\
    Orchestrator.round_number rd = 2 /\
    Orchestrator.queries rd <> [].
Proof.
  destruct (val (research ddgs_two doc_gaps follow_up topic None None None
                   start)) as [r|e] eqn:H; [|vm_compute in H; discriminate].
  destruct (Orchestrator.rounds r !! 1%nat) as [rd|] eqn:Hrd.
  2: { vm_compute in H. injection H as <-. vm_compute in Hrd. discriminate. }
  exists r, rd. split; [reflexivity|]. split; [exact Hrd|].
  unfold research, System.conduct_research in H.
  destruct (rounds_are_made_in_order _ _ _ _ _ _ _ _ _ _ _ _ _ _ _ _ H Hrd)
    as (Hnum & Hq & _).
  split; [exact Hnum|exact Hq].
Defined.

(** X10 at work.  [max_rounds = 0]: a result with no round. *)
Lemma no_rounds_when_max_is_not_positive_witness :
  is_ok (val (research ddgs_two doc_gaps follow_up topic (Some 0) None None
                start)) = true /\
  forall r,
    val (research ddgs_two doc_gaps follow_up topic (Some 0) None None start)
    = Ok r ->
    Orchestrator.rounds r = [] /\ Orchestrator.all_sources r = [] /\
    Orchestrator.total_rounds r = 0%nat.
Proof.
  split; [vm_compute; reflexivity|].
  intros r Hr. unfold research, System.conduct_research in Hr.
  assert (Hmax : 0 <= 0) by lia.
  epose proof (no_rounds_when_max_is_not_positive _ _ _ _ _ _ _ _ topic
                 (Some 0) None None start Hmax) as (_ & _ & H).
  destruct (H r Hr) as (H1 & H2 & H3 & _). auto.
Defined.

(** X11 at work.  Two search results, both with a page: two texts. *)
Lemma contents_come_from_first_ten_results_witness :
  exists r,
    val (research ddgs_two doc_no_gaps follow_up topic None None None start)
    = Ok r /\
    forall rd, rd ∈ Orchestrator.rounds r ->
      (size (Orchestrator.extracted_contents rd) <= 10)%nat /\
      forall u text, Orchestrator.extracted_contents rd !! u = Some text ->
        text <> [] /\
        exists rec, rec ∈ take 10 (Orchestrator.search_results rd) /\
                    url rec = u.
Proof.
  destruct (val (research ddgs_two doc_no_gaps follow_up topic None None None
                   start)) as [r|e] eqn:H; [|vm_compute in H; discriminate].
  exists r. split; [reflexivity|]. intros rd Hrd.
  unfold research in H.
  exact (contents_come_from_first_ten_results _ _ _ _ _ _ _ _ _ _ _ _ _ _ _ _
           _ _ H Hrd).
Defined.




(** X14 at work.  The model answers with four queries: three are kept.
    The model answers with chatter: the gaps of the analysis serve. *)
Lemma follow_up_queries_are_at_most_three_witness :
  val (AIAnalyzer.generate_follow_up_queries (model doc_queries) loads_queries
         (fun _ _ _ => AnalysisPrompt) topic analysis_with_gap 1 0%nat)
  = Ok [JStr (PyStr.lit "q1"); JStr (PyStr.lit "q2"); JStr (PyStr.lit "q3")] /\
  val (AIAnalyzer.generate_follow_up_queries model_chatty loads_queries
         (fun _ _ _ => AnalysisPrompt) topic analysis_with_gap 1 0%nat)
  = Ok [JStr (PyStr.lit "more")].
Proof.
  split.
  - destruct (follow_up_queries_are_at_most_three (model doc_queries)
                loads_queries (fun _ _ _ => AnalysisPrompt) topic
                analysis_with_gap 1 0%nat) as (_ & H & _).
    destruct (H _ doc_queries 1%nat eq_refl eq_refl) as [Hl _].
    apply (Hl [JStr (PyStr.lit "q1"); JStr (PyStr.lit "q2");
               JStr (PyStr.lit "q3"); JStr (PyStr.lit "q4")]).
    vm_compute. reflexivity.
  - destruct (follow_up_queries_are_at_most_three model_chatty
                loads_queries (fun _ _ _ => AnalysisPrompt) topic
                analysis_with_gap 1 0%nat) as (_ & H & _).
    destruct (H _ (PyStr.lit "  ```json hello ```  ") 1%nat eq_refl eq_refl)
      as [_ Hg].
    apply (Hg [JStr (PyStr.lit "more")]); vm_compute; reflexivity.
Defined.

End Examples.
